(** * libxmljs: the native-node / wrapper bridge of [element.cc],
      [attribute.cc] and [libxmljs.cc]

    The development embeds the C++ of the binding as state-passing
    functions over a store of native nodes (the libxml2 tree) and a store
    of wrapper objects.  A call that the C++ cannot complete (failed
    [assert], dereference of a null or dangling pointer) has result
    [None]; a call that completes returns a JavaScript completion and the
    new store. *)

From Stdlib Require Import Ascii.
From stdpp Require Import gmap strings list.

Local Open Scope Z_scope.

(** ** Sequencing of calls that may not complete *)

Definition bind_opt {A B} (m : option A) (k : A → option B) : option B :=
  match m with
  | Some a => k a
  | None => None
  end.

Notation "'let?' x := m 'in' k" := (bind_opt m (λ x, k))
  (at level 10, x pattern, m at level 100, k at level 200,
   format "'[v' 'let?'  x  :=  m  'in' '/' k ']'").

(** ** Native nodes

    Addresses of native nodes and of wrapper objects are positive numbers;
    a null pointer is [None]. *)

Abbreviation ptr := positive (only parsing).
Abbreviation jsref := positive (only parsing).

Inductive xmlElementType :=
| XML_ELEMENT_NODE
| XML_ATTRIBUTE_NODE
| XML_TEXT_NODE
| XML_CDATA_SECTION_NODE
| XML_COMMENT_NODE
| XML_DOCUMENT_NODE.

Global Instance xmlElementType_eq_dec : EqDecision xmlElementType.
Proof. solve_decision. Defined.

(** The fields of [xmlNode] / [xmlAttr] / [xmlDoc] that the binding reads
    or writes.  The [children]/[next] and [properties]/[next] chains are
    lists of addresses; [content] is the text of a text-like node and the
    value of an attribute node. *)
Record xmlNode := mk_xmlNode {
  _private : option jsref;
  type : xmlElementType;
  name : string;
  children : list ptr;
  properties : list ptr;
  parent : option ptr;
  doc : option ptr;
  content : option string;
  ns : option ptr
}.

Definition set_private (w : option jsref) (n : xmlNode) : xmlNode :=
  mk_xmlNode w (type n) (name n) (children n) (properties n) (parent n)
             (doc n) (content n) (ns n).

Definition set_node_name (s : string) (n : xmlNode) : xmlNode :=
  mk_xmlNode (_private n) (type n) s (children n) (properties n) (parent n)
             (doc n) (content n) (ns n).

Definition set_properties (l : list ptr) (n : xmlNode) : xmlNode :=
  mk_xmlNode (_private n) (type n) (name n) (children n) l (parent n)
             (doc n) (content n) (ns n).

Definition set_node_content (c : option string) (n : xmlNode) : xmlNode :=
  mk_xmlNode (_private n) (type n) (name n) (children n) (properties n)
             (parent n) (doc n) c (ns n).

Definition set_ns (p : option ptr) (n : xmlNode) : xmlNode :=
  mk_xmlNode (_private n) (type n) (name n) (children n) (properties n)
             (parent n) (doc n) (content n) p.

(** ** Wrapper objects

    One record stands for the [JsObj] stored in a node's [_private] slot,
    the JavaScript object it holds, and the C++ object ([Element],
    [Attribute], ...) in that object's internal field, whose [xml_obj]
    member points back to the native node. *)

Inductive variant :=
| kDocument
| kElement
| kAttribute
| kNamespace
| kTextLike.

Record JsObj := mk_JsObj {
  kind : variant;
  xml_obj : ptr
}.

Record state := mk_state {
  nodes : gmap positive xmlNode;
  objs : gmap positive JsObj
}.

(** ** JavaScript values *)

(** A JavaScript number is a double: a dyadic rational [m * 2 ^ e], an
    infinity, or NaN. *)
Inductive number :=
| Finite (m e : Z)
| Infinity (negative : bool)
| NaN.

Definition of_Z (z : Z) : number := Finite z 0.

(** [i < x] for a counter [i] that holds an integer. *)
Definition lt_number (i : Z) (x : number) : bool :=
  match x with
  | Finite m e => if 0 <=? e then i <? m * 2 ^ e else i * 2 ^ (- e) <? m
  | Infinity negative => negb negative
  | NaN => false
  end.

(** [jsObject] is a plain object given by its own enumerable properties in
    the order of [GetPropertyNames], each name with the value [Get]
    returns for it; [jsWrapper] is the JavaScript object of a wrapper;
    [jsFunction] is a callback, applied to one wrapper. *)
#[warnings="-register-all"]
Inductive value :=
| jsUndefined
| jsNull
| jsBoolean (b : bool)
| jsNumber (x : number)
| jsString (s : string)
| jsObject (props : list (string * value))
| jsArray (elems : list value)
| jsWrapper (w : jsref)
| jsFunction (f : jsref → state → option state).

Inductive completion :=
| Return (v : value)
| ThrowException (msg : string).

Definition arg (i : nat) (args : list value) : value :=
  default jsUndefined (args !! i).

Definition IsString (v : value) : bool :=
  match v with jsString _ => true | _ => false end.

Definition IsNumber (v : value) : bool :=
  match v with jsNumber _ => true | _ => false end.

Definition IsObject (v : value) : bool :=
  match v with
  | jsObject _ | jsArray _ | jsWrapper _ | jsFunction _ => true
  | _ => false
  end.

(** What V8 does outside the cases above: string conversion of a value
    that is not a string, and the property list of an object that is not
    a plain one. *)
Class V8 := {
  ToString_other : value → string;
  properties_other : value → option (list (string * value))
}.

(** A [char*] is read up to its first NUL character. *)
Fixpoint c_str (s : string) : string :=
  match s with
  | EmptyString => EmptyString
  | String c rest =>
      if Ascii.eqb c "000"%char then EmptyString else String c (c_str rest)
  end.

(** [*v8::String::Utf8Value (v)]: the binding never uses the length of
    the conversion, it hands its [char*] to the engine and to
    [v8::String::New], so the conversion counts up to its first NUL. *)
Definition Utf8Value {v8 : V8} (v : value) : string :=
  c_str match v with
        | jsString s => s
        | _ => ToString_other v
        end.

(** [v->ToObject()] followed by [GetPropertyNames()] and [Get]: [None]
    when [ToObject] yields the empty handle. *)
Definition own_properties {v8 : V8} (v : value)
    : option (list (string * value)) :=
  match v with
  | jsObject props => Some props
  | jsUndefined | jsNull => None
  | _ => properties_other v
  end.

(** ** The native engine (libxml2)

    The functions of libxml2 that the binding calls, on the node store. *)

(** What the engine keeps outside the node store: the namespace bindings
    in scope at a node ([xmlSearchNs], which always resolves the prefix
    [xml] and only answers namespaces that have an [href]), the [href]
    of a namespace, and the attribute declarations of the DTD that carry
    a default value (the lookup [xmlHasProp] falls back to). *)
Class Declarations := {
  xmlSearchNs : ptr → string → option ptr;
  xmlSearchNs_xml : ∀ node, is_Some (xmlSearchNs node "xml");
  href : ptr → string;
  xmlGetDtdAttrDefault : ptr → string → string → option ptr
}.

(** [xmlSplitQName3]: the prefix and the local part of a name with a
    colon that is not its first character. *)
Fixpoint split_at_colon (s : string) : option (string * string) :=
  match s with
  | EmptyString => None
  | String c rest =>
      if Ascii.eqb c ":"%char then Some (EmptyString, rest)
      else match split_at_colon rest with
           | Some (prefix, local) => Some (String c prefix, local)
           | None => None
           end
  end.

Definition xmlSplitQName3 (nm : string) : option (string * string) :=
  match nm with
  | EmptyString => None
  | String c _ => if Ascii.eqb c ":"%char then None else split_at_colon nm
  end.

(** The search loop of [xmlHasProp] and [xmlSetProp] along the
    [properties] chain. *)
Fixpoint find_prop (h : gmap positive xmlNode) (matches : xmlNode → bool)
    (prop : list ptr) : option ptr :=
  match prop with
  | [] => None
  | p :: next =>
      match h !! p with
      | Some a => if matches a then Some p else find_prop h matches next
      | None => find_prop h matches next
      end
  end.

Definition has_name (nm : string) (a : xmlNode) : bool :=
  bool_decide (name a = nm).

Definition has_name_no_ns (nm : string) (a : xmlNode) : bool :=
  bool_decide (name a = nm) && bool_decide (ns a = None).

(** The attribute has that name and a namespace with that [href]. *)
Definition has_name_href {decl : Declarations} (nm : string) (uri : string)
    (a : xmlNode) : bool :=
  bool_decide (name a = nm) &&
  match ns a with
  | Some q => bool_decide (href q = uri)
  | None => false
  end.

(** [xmlHasProp]: the first attribute of that name, whatever its
    namespace; failing that, the DTD's declaration of a default for it;
    null on a node that is not an element. *)
Definition xmlHasProp {decl : Declarations} (h : gmap positive xmlNode)
    (node : ptr) (nm : string) : option ptr :=
  match h !! node with
  | Some n =>
      if decide (type n = XML_ELEMENT_NODE)
      then match find_prop h (has_name nm) (properties n) with
           | Some p => Some p
           | None =>
               match doc n with
               | Some d => xmlGetDtdAttrDefault d (name n) nm
               | None => None
               end
           end
      else None
  | None => None
  end.

Definition new_attr (parent_node : ptr) (d : option ptr) (nm value : string)
    : xmlNode :=
  mk_xmlNode None XML_ATTRIBUTE_NODE nm [] [] (Some parent_node) d
             (Some value) None.

(** The attribute search of [xmlSetNsProp]: by name and no namespace, or
    by name and the [href] of the namespace. *)
Definition in_namespace {decl : Declarations} (nm : string)
    (nsp : option ptr) : xmlNode → bool :=
  match nsp with
  | None => has_name_no_ns nm
  | Some p => has_name_href nm (href p)
  end.

(** [prop->ns = ns]; an attribute found in no namespace has none. *)
Definition bind_ns (nsp : option ptr) (a : xmlNode) : xmlNode :=
  match nsp with
  | None => a
  | Some p => set_ns (Some p) a
  end.

(** [xmlSetNsProp]: overwrite the attribute of that name in that
    namespace, or append a new one to the [properties] chain; null on a
    node that is not an element. *)
Definition xmlSetNsProp {decl : Declarations} (node : ptr)
    (nsp : option ptr) (nm value : string) (h : gmap positive xmlNode)
    : option (ptr * gmap positive xmlNode) :=
  let? n := h !! node in
  if decide (type n = XML_ELEMENT_NODE) then
    match find_prop h (in_namespace nm nsp) (properties n) with
    | Some a =>
        let? an := h !! a in
        Some (a, <[a := bind_ns nsp (set_node_content (Some value) an)]> h)
    | None =>
        let a := fresh (dom h) in
        Some (a, <[node := set_properties (properties n ++ [a]) n]>
                   (<[a := bind_ns nsp (new_attr node (doc n) nm value)]> h))
    end
  else None.

(** [xmlSetProp]: a name with a prefix that is bound at the node sets the
    local name in the namespace of the prefix; any other name is set
    whole, in no namespace. *)
Definition xmlSetProp {decl : Declarations} (node : ptr) (nm value : string)
    (h : gmap positive xmlNode) : option (ptr * gmap positive xmlNode) :=
  match xmlSplitQName3 nm with
  | Some (prefix, local) =>
      match xmlSearchNs node prefix with
      | Some nsp => xmlSetNsProp node (Some nsp) local value h
      | None => xmlSetNsProp node None nm value h
      end
  | None => xmlSetNsProp node None nm value h
  end.

(** [xmlNodeSetName]: text-like nodes keep their name. *)
Definition xmlNodeSetName (cur : ptr) (nm : string)
    (h : gmap positive xmlNode) : gmap positive xmlNode :=
  match h !! cur with
  | Some n =>
      match type n with
      | XML_TEXT_NODE | XML_CDATA_SECTION_NODE | XML_COMMENT_NODE => h
      | _ => <[cur := set_node_name nm n]> h
      end
  | None => h
  end.

Definition concat_strings (l : list string) : string :=
  foldr String.append EmptyString l.

(** The text gathered below an element: text and CDATA content in
    document order, descending through element children. *)
Fixpoint text_below (depth : nat) (h : gmap positive xmlNode) (p : ptr)
    : string :=
  match depth with
  | O => EmptyString
  | S k =>
      match h !! p with
      | Some n =>
          match type n with
          | XML_TEXT_NODE | XML_CDATA_SECTION_NODE =>
              default EmptyString (content n)
          | XML_ELEMENT_NODE | XML_DOCUMENT_NODE =>
              concat_strings (text_below k h <$> children n)
          | _ => EmptyString
          end
      | None => EmptyString
      end
  end.

(** [xmlNodeGetContent]: a fresh buffer for an element or a document
    (never null), a copy of the node's own [content] for an attribute or
    a text-like node (null when that is null). *)
Definition xmlNodeGetContent (h : gmap positive xmlNode) (cur : ptr)
    : option string :=
  let? n := h !! cur in
  match type n with
  | XML_ELEMENT_NODE | XML_DOCUMENT_NODE =>
      Some (concat_strings (text_below (size h) h <$> children n))
  | _ => content n
  end.

(** XPath evaluation, content replacement and the expansion of the
    references of a content string stay black boxes. *)
Inductive xmlXPathObjectType :=
| XPATH_UNDEFINED
| XPATH_NODESET
| XPATH_BOOLEAN
| XPATH_NUMBER
| XPATH_STRING.

Global Instance xmlXPathObjectType_eq_dec : EqDecision xmlXPathObjectType.
Proof. solve_decision. Defined.

Record xmlXPathObject := mk_xmlXPathObject {
  xpath_type : xmlXPathObjectType;
  nodesetval : option (list ptr)
}.

Class Engine := {
  xmlXPathEval : string → option ptr → ptr → gmap positive xmlNode →
                 option xmlXPathObject;
  xmlNodeSetContent : ptr → string → state → option state;
  xmlStringGetNodeList_refs : ptr → string → ptr → gmap positive xmlNode →
                              list ptr * gmap positive xmlNode
}.

Definition new_element (d : ptr) (nm : string) (kids : list ptr) : xmlNode :=
  mk_xmlNode None XML_ELEMENT_NODE nm kids [] None (Some d) None None.

Definition new_text (parent_node : ptr) (d : ptr) (c : string) : xmlNode :=
  mk_xmlNode None XML_TEXT_NODE "text" [] [] (Some parent_node) (Some d)
             (Some c) None.

(** The string holds a [&], the start of a reference. *)
Fixpoint has_amp (s : string) : bool :=
  match s with
  | EmptyString => false
  | String c rest => Ascii.eqb c "&"%char || has_amp rest
  end.

(** [xmlStringGetNodeList], with the parent links that the caller sets:
    the child nodes for a content string.  A string without reference
    gives one text node that holds it; one with a reference is cut into
    text and reference nodes by the engine. *)
Definition xmlStringGetNodeList {engine : Engine} (d : ptr) (value : string)
    (parent_node : ptr) (h : gmap positive xmlNode)
    : list ptr * gmap positive xmlNode :=
  if has_amp value then xmlStringGetNodeList_refs d value parent_node h
  else let t := fresh (dom h) in
       ([t], <[t := new_text parent_node d value]> h).

(** [xmlNewDocNode (doc, NULL, name, content)]: a fresh element, whose
    children are the nodes for the content when one is given. *)
Definition xmlNewDocNode {engine : Engine} (d : ptr) (nm : string)
    (c : option string) (h : gmap positive xmlNode)
    : ptr * gmap positive xmlNode :=
  let cur := fresh (dom h) in
  let h1 := <[cur := new_element d nm []]> h in
  match c with
  | Some content =>
      let (kids, h2) := xmlStringGetNodeList d content cur h1 in
      (cur, <[cur := new_element d nm kids]> h2)
  | None => (cur, h1)
  end.


(** [xmlXPathNodeSetCreate]: a node set holding [val], or empty for null. *)
Definition xmlXPathNodeSetCreate (val : option ptr) : list ptr :=
  match val with
  | Some v => [v]
  | None => []
  end.

(** [xmlXPathNodeSetAdd]: append [val] unless the set holds it already. *)
Definition xmlXPathNodeSetAdd (set : list ptr) (val : ptr) : list ptr :=
  if decide (val ∈ set) then set else set ++ [val].

(** ** The identity registry ([object_wrap.h], [libxmljs.h]) *)

Definition variant_of (t : xmlElementType) : variant :=
  match t with
  | XML_DOCUMENT_NODE => kDocument
  | XML_ELEMENT_NODE => kElement
  | XML_ATTRIBUTE_NODE => kAttribute
  | XML_TEXT_NODE | XML_CDATA_SECTION_NODE | XML_COMMENT_NODE => kTextLike
  end.

(** Modelled from the spec: the macro [LIBXMLJS_GET_MAYBE_BUILD] of
    [object_wrap.h], the registry's [get_or_build].  It returns the
    existing wrapper if one is registered for the native node (the node's
    [_private] slot), else constructs the variant for the node's tag and
    registers it before returning.  The macro's class and type arguments
    are static and have no counterpart here. *)
Definition LIBXMLJS_GET_MAYBE_BUILD (node : ptr) (σ : state)
    : option (jsref * state) :=
  let? n := nodes σ !! node in
  match _private n with
  | Some w => Some (w, σ)
  | None =>
      let w := fresh (dom (objs σ)) in
      Some (w, mk_state (<[node := set_private (Some w) n]> (nodes σ))
                        (<[w := mk_JsObj (variant_of (type n)) node]> (objs σ)))
  end.

(** Modelled from the spec: [LibXmlObj::Unwrap] of [object_wrap.h], the
    C++ object behind a wrapper; its [xml_obj] member is what the callers
    use.  No result for a wrapper that was invalidated. *)
Definition Unwrap (w : jsref) (σ : state) : option ptr :=
  xml_obj <$> objs σ !! w.

(** [LibXmlObj::Unwrap (v->ToObject ())] on an argument. *)
Definition Unwrap_value (v : value) (σ : state) : option ptr :=
  match v with
  | jsWrapper w => Unwrap w σ
  | _ => None
  end.

(** Modelled from the spec: [JsObj::Unwrap] of [object_wrap.h], the
    wrapper registered for a native node. *)
Definition JsObj_Unwrap (node : ptr) (σ : state) : option jsref :=
  let? n := nodes σ !! node in
  _private n.

(** Modelled from the spec: the macro [LIBXMLJS_THROW_EXCEPTION] of
    [libxmljs.h]; a usage error is surfaced immediately, as a thrown
    exception that ends the call. *)
Definition LIBXMLJS_THROW_EXCEPTION (err : string) : completion :=
  ThrowException err.

(** Modelled from the spec: [Node::set_namespace] of [node.cc], which
    binds the node to the namespace. *)
Definition set_namespace (node : ptr) (nsp : ptr) (σ : state) : option state :=
  let? n := nodes σ !! node in
  Some (mk_state (<[node := set_ns (Some nsp) n]> (nodes σ)) (objs σ)).

(** ** [libxmljs.cc] *)

(** [delete static_cast<JsObj*> (p)]; deleting null does nothing. *)
Definition delete_JsObj (p : option jsref) (o : gmap positive JsObj)
    : gmap positive JsObj :=
  match p with
  | Some w => delete w o
  | None => o
  end.

Definition on_libxml_destruct (node : ptr) (σ : state) : option state :=
  let? n := nodes σ !! node in
  match type n with
  | XML_DOCUMENT_NODE =>
      let? d := doc n in
      let? dn := nodes σ !! d in
      Some (mk_state (<[d := set_private None dn]> (nodes σ))
                     (delete_JsObj (_private dn) (objs σ)))
  | _ =>
      Some (mk_state (<[node := set_private None n]> (nodes σ))
                     (delete_JsObj (_private n) (objs σ)))
  end.

(** The engine's global deregistration hook, called on every node the
    engine is about to free. *)
Record xmlGlobalState := mk_xmlGlobalState {
  xmlDeregisterNodeDefaultValue : option (ptr → state → option state)
}.

Definition xmlDeregisterNodeDefault (f : ptr → state → option state)
    (g : xmlGlobalState) : xmlGlobalState :=
  mk_xmlGlobalState (Some f).

(** The constructor [LibXMLJS::LibXMLJS ()]. *)
Definition LibXMLJS (g : xmlGlobalState) : xmlGlobalState :=
  xmlDeregisterNodeDefault on_libxml_destruct g.

(** The notification the engine sends when it frees [cur]. *)
Definition notify_free (g : xmlGlobalState) (cur : ptr) (σ : state)
    : option state :=
  match xmlDeregisterNodeDefaultValue g with
  | Some f => f cur σ
  | None => Some σ
  end.

(** ** [attribute.cc] *)

Module Attribute.
Section attribute.
Context {v8 : V8} {decl : Declarations}.

(** [Attribute::New]: element, name, value and an optional namespace. *)
Definition New (this : jsref) (args : list value) (σ : state)
    : option (completion * state) :=
  match args with
  | [jsNull] => Some (Return (jsWrapper this), σ)
  | _ =>
      let? element := Unwrap_value (arg 0 args) σ in
      let nm := Utf8Value (arg 1 args) in
      let value := Utf8Value (arg 2 args) in
      let? (elem, h) := xmlSetProp element nm value (nodes σ) in
      let σ1 := mk_state h (objs σ) in
      let? σ2 :=
        if bool_decide (length args = 4%nat) && IsObject (arg 3 args) then
          let? nsp := Unwrap_value (arg 3 args) σ1 in
          let? (js_attr, σa) := LIBXMLJS_GET_MAYBE_BUILD elem σ1 in
          let? attr := Unwrap js_attr σa in
          set_namespace attr nsp σa
        else Some σ1 in
      let? (w, σ3) := LIBXMLJS_GET_MAYBE_BUILD elem σ2 in
      Some (Return (jsWrapper w), σ3)
  end.
(** [Attribute::get_name]; the name of a node in the store is never null. *)
Definition get_name (xml_obj : ptr) (σ : state) : option value :=
  let? n := nodes σ !! xml_obj in
  Some (jsString (name n)).

(** [Attribute::get_value]: null only when the engine hands back null. *)
Definition get_value (xml_obj : ptr) (σ : state) : option value :=
  let? _ := nodes σ !! xml_obj in
  match xmlNodeGetContent (nodes σ) xml_obj with
  | Some value => Some (jsString value)
  | None => Some jsNull
  end.

(** [Attribute::get_element]: the wrapper registered for the parent. *)
Definition get_element (xml_obj : ptr) (σ : state) : option value :=
  let? n := nodes σ !! xml_obj in
  let? p := parent n in
  let? w := JsObj_Unwrap p σ in
  Some (jsWrapper w).

Definition Name (this : jsref) (args : list value) (σ : state)
    : option (completion * state) :=
  let? attr := Unwrap this σ in
  let? v := get_name attr σ in
  Some (Return v, σ).

Definition Node (this : jsref) (args : list value) (σ : state)
    : option (completion * state) :=
  let? attr := Unwrap this σ in
  let? v := get_element attr σ in
  Some (Return v, σ).
End attribute.
End Attribute.

(** ** [element.cc] *)

Module Element.
Section element.
Context {v8 : V8} {decl : Declarations} {engine : Engine}.

Definition set_name (xml_obj : ptr) (nm : string) (σ : state)
    : option state :=
  let? _ := nodes σ !! xml_obj in
  Some (mk_state (xmlNodeSetName xml_obj nm (nodes σ)) (objs σ)).

Definition get_name (xml_obj : ptr) (σ : state) : option value :=
  let? n := nodes σ !! xml_obj in
  Some (jsString (name n)).

Definition get_attr (xml_obj : ptr) (nm : string) (σ : state)
    : option (value * state) :=
  let? _ := nodes σ !! xml_obj in
  match xmlHasProp (nodes σ) xml_obj nm with
  | Some attr =>
      let? (w, σ') := LIBXMLJS_GET_MAYBE_BUILD attr σ in
      Some (jsWrapper w, σ')
  | None => Some (jsNull, σ)
  end.

(** [NewInstance] allocates the receiver of the constructor call. *)
Definition set_attr (xml_obj : ptr) (nm value : string) (σ : state)
    : option state :=
  let? w := JsObj_Unwrap xml_obj σ in
  let? (_, σ') := Attribute.New (fresh (dom (objs σ)))
                    [jsWrapper w; jsString nm; jsString value] σ in
  Some σ'.

(** The loop over the property names of an attribute map, in
    [Element::Attr] and [Element::New]. *)
Fixpoint set_attrs (element : ptr) (props : list (string * value))
    (σ : state) : option state :=
  match props with
  | [] => Some σ
  | (nm, v) :: rest =>
      let? σ1 := set_attr element (Utf8Value (jsString nm)) (Utf8Value v) σ in
      set_attrs element rest σ1
  end.

(** The loop of [get_child]: [i] counts from 1 while [i < idx]. *)
Fixpoint get_child_loop (child : list ptr) (i : Z) (idx : number)
    : option ptr :=
  match child with
  | [] => None
  | c :: next =>
      if lt_number i idx then get_child_loop next (i + 1) idx else Some c
  end.

Definition get_child (xml_obj : ptr) (idx : number) (σ : state)
    : option (value * state) :=
  let? n := nodes σ !! xml_obj in
  match get_child_loop (children n) 1 idx with
  | None => Some (jsNull, σ)
  | Some child =>
      let? (w, σ') := LIBXMLJS_GET_MAYBE_BUILD child σ in
      Some (jsWrapper w, σ')
  end.

Definition set_content (xml_obj : ptr) (c : string) (σ : state)
    : option state :=
  xmlNodeSetContent xml_obj c σ.

(** [*content != 0]: the buffer holds at least one character. *)
Definition get_content (xml_obj : ptr) (σ : state) : option value :=
  let? c := xmlNodeGetContent (nodes σ) xml_obj in
  match c with
  | String _ _ => Some (jsString c)
  | EmptyString => Some jsNull
  end.

(** The loop of [find] over [nodeTab]. *)
Fixpoint find_loop (nodeTab : list ptr) (σ : state)
    : option (list value * state) :=
  match nodeTab with
  | [] => Some ([], σ)
  | node :: rest =>
      let? (w, σ1) := LIBXMLJS_GET_MAYBE_BUILD node σ in
      let? (vs, σ2) := find_loop rest σ1 in
      Some (jsWrapper w :: vs, σ2)
  end.

Definition find (xml_obj : ptr) (xpath : string) (σ : state)
    : option (value * state) :=
  let? n := nodes σ !! xml_obj in
  match xmlXPathEval xpath (doc n) xml_obj (nodes σ) with
  | None => Some (jsArray [], σ)
  | Some result =>
      if decide (xpath_type result = XPATH_NODESET) then
        let? nodeTab := nodesetval result in
        let? (vs, σ') := find_loop nodeTab σ in
        Some (jsArray vs, σ')
      else Some (jsArray [], σ)
  end.

(** [Element::New]: doc, name, attrs, content, callback.  The [document]
    property that the constructor sets on the JavaScript object is not
    part of the stores. *)
Definition New (this : jsref) (args : list value) (σ : state)
    : option (completion * state) :=
  match args with
  | [] | jsNull :: _ => Some (Return (jsWrapper this), σ)
  | _ =>
      let? document := Unwrap_value (arg 0 args) σ in
      let nm := Utf8Value (arg 1 args) in
      let c := if IsString (arg 3 args)
               then Some (Utf8Value (arg 3 args))
               else None in
      let (elem, h) := xmlNewDocNode document nm c (nodes σ) in
      let? (obj, σ1) := LIBXMLJS_GET_MAYBE_BUILD elem (mk_state h (objs σ)) in
      let? element := Unwrap obj σ1 in
      let? σ2 :=
        if IsObject (arg 2 args) then
          let? attributes := own_properties (arg 2 args) in
          set_attrs element attributes σ1
        else Some σ1 in
      let? σ3 :=
        match arg 4 args with
        | jsFunction callback => callback obj σ2
        | _ => Some σ2
        end in
      Some (Return (jsWrapper obj), σ3)
  end.

Definition Name (this : jsref) (args : list value) (σ : state)
    : option (completion * state) :=
  let? element := Unwrap this σ in
  match args with
  | [] =>
      let? v := get_name element σ in
      Some (Return v, σ)
  | a :: _ =>
      let? σ' := set_name element (Utf8Value a) σ in
      Some (Return (jsWrapper this), σ')
  end.

Definition Attr (this : jsref) (args : list value) (σ : state)
    : option (completion * state) :=
  let? element := Unwrap this σ in
  match args with
  | [a] =>
      if IsString a then
        let? (v, σ') := get_attr element (Utf8Value a) σ in
        Some (Return v, σ')
      else
        let? attrs := own_properties a in
        let? σ' := set_attrs element attrs σ in
        Some (Return (jsWrapper this), σ')
  | _ =>
      Some (LIBXMLJS_THROW_EXCEPTION
              "Bad argument(s): #attr(name) or #attr({name: value})", σ)
  end.

Definition Find (this : jsref) (args : list value) (σ : state)
    : option (completion * state) :=
  let? element := Unwrap this σ in
  let? (v, σ') := find element (Utf8Value (arg 0 args)) σ in
  Some (Return v, σ').

Definition Text (this : jsref) (args : list value) (σ : state)
    : option (completion * state) :=
  let? element := Unwrap this σ in
  match args with
  | [] =>
      let? v := get_content element σ in
      Some (Return v, σ)
  | a :: _ =>
      let? σ' := set_content element (Utf8Value a) σ in
      Some (Return (jsWrapper this), σ')
  end.

Definition Child (this : jsref) (args : list value) (σ : state)
    : option (completion * state) :=
  let? element := Unwrap this σ in
  match args with
  | [] =>
      let? (v, σ') := get_child element (of_Z 1) σ in
      Some (Return v, σ')
  | a :: _ =>
      match a with
      | jsNumber idx =>
          let? (v, σ') := get_child element idx σ in
          Some (Return v, σ')
      | _ =>
          Some (LIBXMLJS_THROW_EXCEPTION
                  "Bad argument: must provide #child() with a number", σ)
      end
  end.
(** [Element::get_attrs]: the loop over the [properties] chain wraps each
    attribute and pushes it, as the loop of [find] does for its table. *)
Definition get_attrs (xml_obj : ptr) (σ : state) : option (value * state) :=
  let? n := nodes σ !! xml_obj in
  match properties n with
  | [] => Some (jsArray [], σ)
  | attr =>
      let? (vs, σ') := find_loop attr σ in
      Some (jsArray vs, σ')
  end.

(** [Element::get_children]: the children are first gathered in a node
    set, created on the first child, then wrapped in the order of the
    set. *)
Definition get_children (xml_obj : ptr) (σ : state)
    : option (value * state) :=
  let? n := nodes σ !! xml_obj in
  let child := children n in
  let set := xmlXPathNodeSetCreate (head child) in
  match child with
  | [] => Some (jsArray [], σ)
  | _ =>
      let set := foldl xmlXPathNodeSetAdd set child in
      let? (vs, σ') := find_loop set σ in
      Some (jsArray vs, σ')
  end.

Definition Attrs (this : jsref) (args : list value) (σ : state)
    : option (completion * state) :=
  let? element := Unwrap this σ in
  let? (v, σ') := get_attrs element σ in
  Some (Return v, σ').

Definition Children (this : jsref) (args : list value) (σ : state)
    : option (completion * state) :=
  let? element := Unwrap this σ in
  let? (v, σ') := get_children element σ in
  Some (Return v, σ').
End element.
End Element.

(** ** Observations used in the statements *)

(** The value of the attribute [nm] (in no namespace) of an element, as
    the engine stores it. *)
Definition attr_value (h : gmap positive xmlNode) (element : ptr)
    (nm : string) : option string :=
  let? n := h !! element in
  let? a := find_prop h (has_name_no_ns nm) (properties n) in
  let? an := h !! a in
  content an.

(** Two node records that the attribute search cannot tell apart. *)
Definition same_attrs (n n' : xmlNode) : Prop :=
  name n = name n' ∧ ns n = ns n' ∧ properties n = properties n' ∧
  content n = content n'.

(** The value paired with the last occurrence of [k] in a property list. *)
Fixpoint last_binding (k : string) (props : list (string * value))
    : option value :=
  match props with
  | [] => None
  | (k', v) :: rest =>
      match last_binding k rest with
      | Some v' => Some v'
      | None => if decide (k' = k) then Some v else None
      end
  end.

(** The engine sets the attribute name [nm] whole at [node]: the name has
    no prefix, or a prefix that is not bound there. *)
Definition set_whole {decl : Declarations} (node : ptr) (nm : string)
    : Prop :=
  ∀ prefix local, xmlSplitQName3 nm = Some (prefix, local) →
                  xmlSearchNs node prefix = None.

(** A name that the binding and the engine both read whole: it holds no
    NUL character and no prefix. *)
Definition plain_name (nm : string) : Prop :=
  c_str nm = nm ∧ xmlSplitQName3 nm = None.

(** The registry is consistent at [node]: the wrapper in the node's slot
    points back to the node. *)
Definition registered (σ : state) (node : ptr) (w : jsref) : Prop :=
  JsObj_Unwrap node σ = Some w ∧ Unwrap w σ = Some node.

(** The registry is consistent: every filled slot holds a wrapper that
    points back to the node of the slot. *)
Definition consistent (σ : state) : Prop :=
  ∀ p pn w, nodes σ !! p = Some pn → _private pn = Some w →
            Unwrap w σ = Some p.

(** Two stores hold the same tree: the node records agree on everything
    but the [_private] slot. *)
Definition same_tree (h h' : gmap positive xmlNode) : Prop :=
  ∀ p, set_private None <$> h !! p = set_private None <$> h' !! p.

(** A step that only built wrappers: the tree is the same, filled slots
    and existing wrappers are kept, and consistency is kept. *)
Definition only_wraps (σ σ' : state) : Prop :=
  same_tree (nodes σ) (nodes σ') ∧
  (∀ q v, JsObj_Unwrap q σ = Some v → JsObj_Unwrap q σ' = Some v) ∧
  (∀ v j, objs σ !! v = Some j → objs σ' !! v = Some j) ∧
  (consistent σ → consistent σ').

(** The [properties] chain of [element] is well formed: its live nodes
    are attribute nodes in no namespace whose parent is the element. *)
Definition plain_attributes (h : gmap positive xmlNode) (element : ptr)
    (n : xmlNode) : Prop :=
  ∀ p x, p ∈ properties n → h !! p = Some x →
         type x = XML_ATTRIBUTE_NODE ∧ parent x = Some element ∧ ns x = None.

(** ** Sample stores

    A document (address 1) with root element [root] (address 2), which has
    an element child (3), a text child (4) and the attribute [id] (5).
    The root is wrapped by object 1. *)

Definition sample_nodes : gmap positive xmlNode :=
  <[1%positive := mk_xmlNode None XML_DOCUMENT_NODE "" [2%positive] [] None
                    (Some 1%positive) None None]>
  (<[2%positive := mk_xmlNode (Some 1%positive) XML_ELEMENT_NODE "root"
                     [3%positive; 4%positive] [5%positive] (Some 1%positive)
                     (Some 1%positive) None None]>
  (<[3%positive := mk_xmlNode None XML_ELEMENT_NODE "child" [] []
                     (Some 2%positive) (Some 1%positive) None None]>
  (<[4%positive := mk_xmlNode None XML_TEXT_NODE "text" [] []
                     (Some 2%positive) (Some 1%positive) (Some "hi") None]>
  (<[5%positive := mk_xmlNode None XML_ATTRIBUTE_NODE "id" [] []
                     (Some 2%positive) (Some 1%positive) (Some "7") None]>
   ∅)))).

Definition sample_objs : gmap positive JsObj :=
  <[1%positive := mk_JsObj kElement 2%positive]>
  (<[2%positive := mk_JsObj kDocument 1%positive]> ∅).

Definition sample : state := mk_state sample_nodes sample_objs.

(** The same document with a wrapper registered for it in [doc->_private]. *)
Definition sample_doc_wrapped : state :=
  mk_state
    (<[1%positive := mk_xmlNode (Some 2%positive) XML_DOCUMENT_NODE ""
                       [2%positive] [] None (Some 1%positive) None None]>
       sample_nodes)
    sample_objs.

Definition sample_v8 : V8 :=
  {| ToString_other := λ _, "undefined";
     properties_other := λ _, Some [] |}.

(** An evaluator that fails on [!], answers a number to [1], a node set
    with a null table to a path through a step that selects nothing, and
    the children of the context node to anything else; the engine
    replaces no content and builds no node for a content with
    references. *)
Definition sample_engine : Engine :=
  {| xmlXPathEval := λ xpath _ node h,
       if bool_decide (xpath = "!") then None
       else if bool_decide (xpath = "1")
            then Some (mk_xmlXPathObject XPATH_NUMBER None)
       else if bool_decide (xpath = "missing/child")
            then Some (mk_xmlXPathObject XPATH_NODESET None)
            else Some (mk_xmlXPathObject XPATH_NODESET
                         (children <$> h !! node));
     xmlNodeSetContent := λ _ _ σ, Some σ;
     xmlStringGetNodeList_refs := λ _ _ _ h, ([], h) |}.

(** No namespace is bound but that of [xml], and the DTD declares no
    default. *)
Definition sample_declarations : Declarations :=
  {| xmlSearchNs := λ _ prefix,
       if bool_decide (prefix = "xml") then Some 100%positive else None;
     xmlSearchNs_xml := λ _, mk_is_Some _ _ eq_refl;
     href := λ _, "http://www.w3.org/XML/1998/namespace";
     xmlGetDtdAttrDefault := λ _ _ _, None |}.

Definition no_hook : xmlGlobalState := mk_xmlGlobalState None.

(** The record of the sample root, and of the sample document once it is
    wrapped. *)
Definition sample_root : xmlNode :=
  mk_xmlNode (Some 1%positive) XML_ELEMENT_NODE "root"
             [3%positive; 4%positive] [5%positive] (Some 1%positive)
             (Some 1%positive) None None.

(** The index 1.5. *)
Definition one_and_a_half : number := Finite 3 (-1).

(** * Properties *)

(** ** Stores and allocation *)

Lemma bind_opt_Some {A B} (m : option A) (k : A → option B) (b : B) :
  bind_opt m k = Some b ↔ ∃ a, m = Some a ∧ k a = Some b.
Proof.
  destruct m as [a|]; simpl; split.
  - intros Hk. exists a. done.
  - intros (a' & Ha & Hk). by simplify_eq.
  - done.
  - intros (a' & Ha & _). done.
Qed.

Lemma fresh_node_unused (h : gmap positive xmlNode) : h !! fresh (dom h) = None.
Proof. apply not_elem_of_dom, is_fresh. Qed.

Lemma fresh_obj_unused (o : gmap positive JsObj) : o !! fresh (dom o) = None.
Proof. apply not_elem_of_dom, is_fresh. Qed.

Lemma fresh_node_ne (h : gmap positive xmlNode) (p : positive) (n : xmlNode) :
  h !! p = Some n → p ≠ fresh (dom h).
Proof. intros Hp ->. by rewrite fresh_node_unused in Hp. Qed.

Lemma fresh_obj_ne (o : gmap positive JsObj) (w : positive) (j : JsObj) :
  o !! w = Some j → w ≠ fresh (dom o).
Proof. intros Hw ->. by rewrite fresh_obj_unused in Hw. Qed.

Lemma delete_JsObj_lookup (p : option positive) (o : gmap positive JsObj)
    (w : positive) :
  delete_JsObj p o !! w = if decide (p = Some w) then None else o !! w.
Proof.
  unfold delete_JsObj. case_decide as Hv.
  - subst p. apply lookup_delete_eq.
  - destruct p as [v|]; [|done]. apply lookup_delete_ne. congruence.
Qed.

(** ** Destruction notification *)

(** C1: once the constructor [LibXMLJS] has run, the notification the
    engine sends for a freed node returns with the registry entry gone:
    the wrapper link in the slot is deleted and the slot is null.  The
    slot is the node's own [_private] for every node but a Document node,
    for which it is [doc->_private].  No other slot and no other wrapper
    is touched. *)
Theorem destruct_removes_mapping (g : xmlGlobalState) (σ : state)
    (node slot : positive) (n sn : xmlNode) :
  nodes σ !! node = Some n →
  (if decide (type n = XML_DOCUMENT_NODE) then doc n else Some node)
    = Some slot →
  nodes σ !! slot = Some sn →
  ∃ σ', notify_free (LibXMLJS g) node σ = Some σ' ∧
        nodes σ' !! slot = Some (set_private None sn) ∧
        (∀ w, _private sn = Some w → objs σ' !! w = None) ∧
        (∀ p, p ≠ slot → nodes σ' !! p = nodes σ !! p) ∧
        (∀ w, _private sn ≠ Some w → objs σ' !! w = objs σ !! w).
Proof.
  intros Hnode Hslot Hsn.
  unfold notify_free, LibXMLJS, xmlDeregisterNodeDefault; simpl.
  unfold on_libxml_destruct. rewrite Hnode; simpl.
  case_decide as Hty.
  - rewrite Hty, Hslot; simpl. rewrite Hsn; simpl.
    eexists; split; [reflexivity|]; simpl.
    split; [apply lookup_insert_eq|].
    split; [intros w Hw; rewrite delete_JsObj_lookup; by case_decide|].
    split; [intros p Hp; by apply lookup_insert_ne|].
    intros w Hw. rewrite delete_JsObj_lookup. by case_decide.
  - assert (slot = node) as -> by congruence.
    assert (sn = n) as -> by congruence.
    exists (mk_state (<[node := set_private None n]> (nodes σ))
                     (delete_JsObj (_private n) (objs σ))).
    split; [by destruct (type n)|]; simpl.
    split; [apply lookup_insert_eq|].
    split; [intros w Hw; rewrite delete_JsObj_lookup; by case_decide|].
    split; [intros p Hp; by apply lookup_insert_ne|].
    intros w Hw. rewrite delete_JsObj_lookup. by case_decide.
Qed.

Lemma destruct_removes_mapping_witness :
  ∃ σ', notify_free (LibXMLJS no_hook) 1%positive sample_doc_wrapped = Some σ' ∧
        nodes σ' !! 1%positive
          = Some (mk_xmlNode None XML_DOCUMENT_NODE "" [2%positive] [] None
                    (Some 1%positive) None None) ∧
        objs σ' !! 2%positive = None.
Proof.
  destruct (destruct_removes_mapping no_hook sample_doc_wrapped 1%positive
              1%positive
              (mk_xmlNode (Some 2%positive) XML_DOCUMENT_NODE "" [2%positive]
                 [] None (Some 1%positive) None None)
              (mk_xmlNode (Some 2%positive) XML_DOCUMENT_NODE "" [2%positive]
                 [] None (Some 1%positive) None None))
    as (σ' & Hrun & Hslot & Hobj & _).
  - reflexivity.
  - reflexivity.
  - reflexivity.
  - exists σ'. split; [exact Hrun|]. split; [exact Hslot|].
    apply Hobj. reflexivity.
Defined.

(** ** The identity registry *)

Lemma set_private_same (n : xmlNode) (w : option positive) :
  _private n = w → set_private w n = n.
Proof. intros <-. by destruct n. Qed.

Lemma get_or_build_registered (σ : state) (node w : positive) (n : xmlNode) :
  nodes σ !! node = Some n →
  _private n = Some w →
  LIBXMLJS_GET_MAYBE_BUILD node σ = Some (w, σ).
Proof.
  intros Hnode Hw. unfold LIBXMLJS_GET_MAYBE_BUILD.
  rewrite Hnode; simpl. by rewrite Hw.
Qed.

Lemma get_or_build_fresh (σ : state) (node : positive) (n : xmlNode) :
  nodes σ !! node = Some n →
  _private n = None →
  LIBXMLJS_GET_MAYBE_BUILD node σ
    = Some (fresh (dom (objs σ)),
            mk_state
              (<[node := set_private (Some (fresh (dom (objs σ)))) n]> (nodes σ))
              (<[fresh (dom (objs σ)) := mk_JsObj (variant_of (type n)) node]>
                 (objs σ))).
Proof.
  intros Hnode Hw. unfold LIBXMLJS_GET_MAYBE_BUILD.
  rewrite Hnode; simpl. by rewrite Hw.
Qed.

(** What one lookup does to the stores: the node ends up registered, the
    other nodes keep their record, this node keeps everything but its
    slot, and the wrappers that existed are kept. *)
Lemma get_or_build_effect (σ : state) (node : positive) (n : xmlNode) :
  nodes σ !! node = Some n →
  ∃ w σ', LIBXMLJS_GET_MAYBE_BUILD node σ = Some (w, σ') ∧
          nodes σ' !! node = Some (set_private (Some w) n) ∧
          (∀ p, p ≠ node → nodes σ' !! p = nodes σ !! p) ∧
          (∀ v j, objs σ !! v = Some j → objs σ' !! v = Some j) ∧
          (_private n = None →
           objs σ' !! w = Some (mk_JsObj (variant_of (type n)) node)) ∧
          (∀ w0, _private n = Some w0 → w = w0 ∧ σ' = σ).
Proof.
  intros Hnode. destruct (_private n) as [w0|] eqn:Hslot.
  - exists w0, σ. split; [by apply (get_or_build_registered σ node w0 n)|].
    split; [by rewrite (set_private_same n (Some w0))|].
    split; [done|]. split; [done|]. split; [done|].
    intros w1 Hw1. by simplify_eq.
  - eexists _, _. split; [by apply get_or_build_fresh|]. simpl.
    split; [apply lookup_insert_eq|].
    split; [intros p Hp; by apply lookup_insert_ne|].
    split.
    { intros v j Hv. rewrite lookup_insert_ne; [done|].
      intros <-. by rewrite fresh_obj_unused in Hv. }
    split; [intros _; apply lookup_insert_eq|done].
Qed.

(** C2: [get_or_build] is idempotent.  For a live node whose slot, if
    filled, holds a wrapper of that node, two successive lookups return
    the same wrapper; the second lookup changes nothing, and the wrapper
    is the one registered for the node and points at the node. *)
Theorem get_or_build_idempotent (σ : state) (node : positive) (n : xmlNode) :
  nodes σ !! node = Some n →
  (∀ w, _private n = Some w → Unwrap w σ = Some node) →
  ∃ w σ1, LIBXMLJS_GET_MAYBE_BUILD node σ = Some (w, σ1) ∧
          LIBXMLJS_GET_MAYBE_BUILD node σ1 = Some (w, σ1) ∧
          registered σ1 node w.
Proof.
  intros Hnode Hcons.
  destruct (get_or_build_effect σ node n Hnode)
    as (w & σ1 & Hrun & Hslot & _ & _ & Hnew & Hold).
  exists w, σ1. split; [done|].
  split.
  { by apply (get_or_build_registered σ1 node w (set_private (Some w) n)). }
  split.
  - unfold JsObj_Unwrap. by rewrite Hslot.
  - destruct (_private n) as [w0|] eqn:Hp.
    + destruct (Hold w0 eq_refl) as [-> ->]. by apply Hcons.
    + unfold Unwrap. by rewrite (Hnew eq_refl).
Qed.

Lemma get_or_build_idempotent_witness :
  ∃ w σ1, LIBXMLJS_GET_MAYBE_BUILD 3%positive sample = Some (w, σ1) ∧
          LIBXMLJS_GET_MAYBE_BUILD 3%positive σ1 = Some (w, σ1) ∧
          registered σ1 3%positive w.
Proof.
  apply (get_or_build_idempotent sample 3%positive
           (mk_xmlNode None XML_ELEMENT_NODE "child" [] []
              (Some 2%positive) (Some 1%positive) None None)).
  - reflexivity.
  - simpl. intros w Hw. discriminate Hw.
Defined.

(** ** [Element::Child] and [Element::get_child] *)

(** C9: [child] with a first argument that is not a number throws for
    that call and leaves the nodes, the registry and the wrappers as they
    were. *)
Theorem child_rejects_non_number (σ : state) (this element : positive)
    (a : value) (rest : list value) :
  Unwrap this σ = Some element →
  IsNumber a = false →
  Element.Child this (a :: rest) σ
    = Some (ThrowException "Bad argument: must provide #child() with a number",
            σ).
Proof.
  intros Hthis Ha. unfold Element.Child. rewrite Hthis; simpl.
  by destruct a.
Qed.

Lemma child_rejects_non_number_witness :
  Element.Child 1%positive [jsString "first"] sample
    = Some (ThrowException "Bad argument: must provide #child() with a number",
            sample).
Proof.
  apply (child_rejects_non_number sample 1%positive 2%positive).
  - reflexivity.
  - reflexivity.
Defined.

Lemma lt_number_of_Z (j i : Z) : lt_number j (of_Z i) = bool_decide (j < i).
Proof.
  unfold lt_number, of_Z; simpl. rewrite Z.mul_1_r.
  case_bool_decide; [by apply Z.ltb_lt|by apply Z.ltb_ge; lia].
Qed.

(** From the start of the counting, the loop of [get_child] stops on the
    child at offset [i - j]. *)
Lemma get_child_loop_offset (l : list positive) (j i : Z) :
  j ≤ i → Element.get_child_loop l j (of_Z i) = l !! Z.to_nat (i - j).
Proof.
  revert j.
  induction l as [|c l IH]; intros j Hj; cbn [Element.get_child_loop]; [done|].
  rewrite lt_number_of_Z. case_bool_decide as Hlt.
  - rewrite IH by lia.
    replace (Z.to_nat (i - j)) with (S (Z.to_nat (i - (j + 1)))) by lia.
    done.
  - by replace (Z.to_nat (i - j)) with O by lia.
Qed.

(** An index that the counter does not stay below stops the loop at once. *)
Lemma get_child_loop_low (l : list positive) (j : Z) (idx : number) :
  lt_number j idx = false → Element.get_child_loop l j idx = head l.
Proof.
  intros Hi. destruct l as [|c l]; cbn [Element.get_child_loop]; [done|].
  by rewrite Hi.
Qed.

Lemma lt_number_mono (j j' : Z) (idx : number) :
  j ≤ j' → lt_number j' idx = true → lt_number j idx = true.
Proof.
  intros Hj. destruct idx as [m e|neg|]; simpl; [|done|done].
  destruct (0 <=? e) eqn:He; rewrite !Z.ltb_lt; [lia|].
  assert (0 ≤ 2 ^ (- e)) by (apply Z.pow_nonneg; lia). nia.
Qed.

(** An index above the last position runs the loop off the chain. *)
Lemma get_child_loop_beyond (l : list positive) (j : Z) (idx : number) :
  lt_number (j + Z.of_nat (length l) - 1) idx = true →
  Element.get_child_loop l j idx = None.
Proof.
  revert j.
  induction l as [|c l IH]; intros j Hj; cbn [Element.get_child_loop]; [done|].
  rewrite (lt_number_mono j (j + Z.of_nat (length (c :: l)) - 1) idx)
    by (done || simpl; lia).
  apply IH.
  replace (j + 1 + Z.of_nat (length l) - 1)
    with (j + Z.of_nat (length (c :: l)) - 1) by (simpl; lia).
  done.
Qed.

Lemma Child_number (σ : state) (this element : positive) (idx : number) :
  Unwrap this σ = Some element →
  Element.Child this [jsNumber idx] σ
    = let? (v, σ') := Element.get_child element idx σ in Some (Return v, σ').
Proof. intros Hthis. unfold Element.Child. by rewrite Hthis. Qed.

(** C5, as stated, fails: on the sample root, which has two children,
    [child(0)] is not null; it is the wrapper of the first child, as for
    [child(1)]. *)
Lemma child_zero_counterexample :
  ∃ w σ', Element.Child 1%positive [jsNumber (of_Z 0)] sample
            = Some (Return (jsWrapper w), σ') ∧
          JsObj_Unwrap 3%positive σ' = Some w ∧
          Element.Child 1%positive [jsNumber (of_Z 0)] sample
            ≠ Some (Return jsNull, sample).
Proof.
  eexists _, _. split; [vm_compute; reflexivity|].
  split; [vm_compute; reflexivity|].
  vm_compute. discriminate.
Qed.

(** C5, amended: [child(i)] is a 1-based positional lookup among the
    direct children.  For an index above the number of children it
    returns null and changes nothing, without throwing; for an integer
    [1 ≤ i] within range it returns the wrapper registered for the
    [i]-th child, so [child(1)] returns the first child whenever there is
    one; and an index that is not above 1, such as 0, gives what
    [child(1)] gives. *)
Theorem child_positional (σ : state) (this element : positive) (n : xmlNode) :
  Unwrap this σ = Some element →
  nodes σ !! element = Some n →
  (∀ c, c ∈ children n → is_Some (nodes σ !! c)) →
  (∀ idx, lt_number (Z.of_nat (length (children n))) idx = true →
     Element.Child this [jsNumber idx] σ = Some (Return jsNull, σ)) ∧
  (∀ i c, 1 ≤ i → children n !! Z.to_nat (i - 1) = Some c →
     ∃ w σ', Element.Child this [jsNumber (of_Z i)] σ
               = Some (Return (jsWrapper w), σ') ∧
             JsObj_Unwrap c σ' = Some w) ∧
  (∀ idx, lt_number 1 idx = false →
     Element.Child this [jsNumber idx] σ
       = Element.Child this [jsNumber (of_Z 1)] σ).
Proof.
  intros Hthis Hnode Hlive. split; [|split].
  - intros idx Hidx. rewrite (Child_number σ this element) by done.
    unfold Element.get_child. rewrite Hnode; simpl.
    rewrite get_child_loop_beyond; [done|].
    by replace (1 + Z.of_nat (length (children n)) - 1)
      with (Z.of_nat (length (children n))) by lia.
  - intros i c Hi Hc. rewrite (Child_number σ this element) by done.
    unfold Element.get_child. rewrite Hnode; simpl.
    rewrite get_child_loop_offset by lia. rewrite Hc.
    destruct (Hlive c) as [cn Hcn]; [by eapply list_elem_of_lookup_2|].
    destruct (get_or_build_effect σ c cn Hcn) as (w & σ' & Hrun & Hslot & _).
    exists w, σ'. rewrite Hrun; simpl. split; [done|].
    unfold JsObj_Unwrap. by rewrite Hslot.
  - intros idx Hidx. rewrite !(Child_number σ this element) by done.
    unfold Element.get_child. rewrite Hnode; simpl.
    by rewrite !get_child_loop_low by done.
Qed.

Lemma child_positional_witness :
  Element.Child 1%positive [jsNumber (of_Z 3)] sample
    = Some (Return jsNull, sample) ∧
  (∃ w σ', Element.Child 1%positive [jsNumber (of_Z 1)] sample
             = Some (Return (jsWrapper w), σ') ∧
           JsObj_Unwrap 3%positive σ' = Some w) ∧
  Element.Child 1%positive [jsNumber (of_Z 0)] sample
    = Element.Child 1%positive [jsNumber (of_Z 1)] sample.
Proof.
  destruct (child_positional sample 1%positive 2%positive
              (mk_xmlNode (Some 1%positive) XML_ELEMENT_NODE "root"
                 [3%positive; 4%positive] [5%positive] (Some 1%positive)
                 (Some 1%positive) None None))
    as (Hhigh & Hin & Hlow).
  - reflexivity.
  - reflexivity.
  - simpl. intros c Hc.
    apply list_elem_of_In in Hc. simpl in Hc.
    destruct Hc as [<-|[<-|[]]]; eexists; reflexivity.
  - split; [apply Hhigh; reflexivity|].
    split; [apply (Hin 1 3%positive); [lia|reflexivity]|].
    apply Hlow. reflexivity.
Defined.

(** Infinity is above every position, and NaN is not above 1. *)
Example child_of_infinity_and_nan :
  Element.Child 1%positive [jsNumber (Infinity false)] sample
    = Some (Return jsNull, sample) ∧
  Element.Child 1%positive [jsNumber NaN] sample
    = Element.Child 1%positive [jsNumber (of_Z 1)] sample.
Proof. split; vm_compute; reflexivity. Qed.

(** ** Lookups that build wrappers *)

Lemma get_or_build_keeps (σ σ' : state) (node w : positive) :
  LIBXMLJS_GET_MAYBE_BUILD node σ = Some (w, σ') →
  JsObj_Unwrap node σ' = Some w ∧
  (∀ p, is_Some (nodes σ !! p) → is_Some (nodes σ' !! p)) ∧
  (∀ q v, JsObj_Unwrap q σ = Some v → JsObj_Unwrap q σ' = Some v).
Proof.
  intros Hrun.
  destruct (nodes σ !! node) as [n|] eqn:Hnode;
    [|unfold LIBXMLJS_GET_MAYBE_BUILD in Hrun; by rewrite Hnode in Hrun].
  destruct (get_or_build_effect σ node n Hnode)
    as (w1 & σ1 & Hrun1 & Hslot & Hother & _ & _ & Hold).
  rewrite Hrun in Hrun1. simplify_eq. split; [|split].
  - unfold JsObj_Unwrap. by rewrite Hslot.
  - intros p Hp. destruct (decide (p = node)) as [->|Hne].
    + by rewrite Hslot.
    + by rewrite Hother.
  - intros q v Hq. destruct (decide (q = node)) as [->|Hne].
    + unfold JsObj_Unwrap in Hq. rewrite Hnode in Hq; simpl in Hq.
      destruct (Hold v Hq) as [-> ->].
      unfold JsObj_Unwrap. by rewrite Hnode.
    + unfold JsObj_Unwrap in *. by rewrite Hother.
Qed.

(** The loop of [find] wraps every node of the node set, in order. *)
Lemma find_loop_wraps (l : list positive) (σ : state) :
  (∀ p, p ∈ l → is_Some (nodes σ !! p)) →
  ∃ ws σ', Element.find_loop l σ = Some (jsWrapper <$> ws, σ') ∧
           Forall2 (λ p w, JsObj_Unwrap p σ' = Some w) l ws ∧
           (∀ p, is_Some (nodes σ !! p) → is_Some (nodes σ' !! p)) ∧
           (∀ q v, JsObj_Unwrap q σ = Some v → JsObj_Unwrap q σ' = Some v).
Proof.
  revert σ. induction l as [|p l IH]; intros σ Hlive.
  - exists [], σ. simpl. by repeat split.
  - destruct (Hlive p) as [pn Hpn]; [by left|].
    destruct (get_or_build_effect σ p pn Hpn) as (w & σ1 & Hrun & _).
    destruct (get_or_build_keeps σ σ1 p w Hrun) as (Hw & Hkeep & Hreg).
    destruct (IH σ1) as (ws & σ2 & Hloop & Hall & Hkeep2 & Hreg2).
    { intros q Hq. apply Hkeep, Hlive. by right. }
    exists (w :: ws), σ2. cbn [Element.find_loop]. rewrite Hrun; simpl.
    rewrite Hloop; simpl. split; [done|].
    split; [constructor; [by apply Hreg2|done]|].
    split; [intros q Hq; by apply Hkeep2, Hkeep|].
    intros q v Hq. by apply Hreg2, Hreg.
Qed.

Section bindings.
Context {v8 : V8} {decl : Declarations} {engine : Engine}.

Lemma Find_string (σ : state) (this element : positive) (xpath : string) :
  Unwrap this σ = Some element →
  Element.Find this [jsString xpath] σ
    = let? (v, σ') := Element.find element (c_str xpath) σ in
      Some (Return v, σ').
Proof. intros Hthis. unfold Element.Find. by rewrite Hthis. Qed.

(** What [find] does with the answer of the evaluator to the expression
    (read up to its first NUL).  When the evaluation fails (null result)
    or the result is not a node set, the array is empty and nothing
    changes; for a node set with a table of live nodes the array holds,
    in the order of the table, the wrapper registered for each node; a
    call that completes returns an array and does not throw. *)
Lemma find_degrades_to_empty (σ : state) (this element : positive)
    (n : xmlNode) :
  Unwrap this σ = Some element →
  nodes σ !! element = Some n →
  (∀ xpath,
     xmlXPathEval (c_str xpath) (doc n) element (nodes σ) = None →
     Element.Find this [jsString xpath] σ = Some (Return (jsArray []), σ)) ∧
  (∀ xpath r,
     xmlXPathEval (c_str xpath) (doc n) element (nodes σ) = Some r →
     xpath_type r ≠ XPATH_NODESET →
     Element.Find this [jsString xpath] σ = Some (Return (jsArray []), σ)) ∧
  (∀ xpath r l,
     xmlXPathEval (c_str xpath) (doc n) element (nodes σ) = Some r →
     xpath_type r = XPATH_NODESET →
     nodesetval r = Some l →
     (∀ p, p ∈ l → is_Some (nodes σ !! p)) →
     ∃ ws σ', Element.Find this [jsString xpath] σ
                = Some (Return (jsArray (jsWrapper <$> ws)), σ') ∧
              Forall2 (λ p w, JsObj_Unwrap p σ' = Some w) l ws) ∧
  (∀ args c σ',
     Element.Find this args σ = Some (c, σ') → ∃ vs, c = Return (jsArray vs)).
Proof.
  intros Hthis Hnode. split; [|split; [|split]].
  - intros xpath Hfail. rewrite (Find_string σ this element) by done.
    unfold Element.find. rewrite Hnode; simpl. by rewrite Hfail.
  - intros xpath r Heval Hty. rewrite (Find_string σ this element) by done.
    unfold Element.find. rewrite Hnode; simpl. rewrite Heval.
    by rewrite decide_False.
  - intros xpath r l Heval Hty Hset Hlive.
    rewrite (Find_string σ this element) by done.
    unfold Element.find. rewrite Hnode; simpl. rewrite Heval.
    rewrite decide_True by done. rewrite Hset; simpl.
    destruct (find_loop_wraps l σ Hlive) as (ws & σ' & Hloop & Hall & _).
    exists ws, σ'. by rewrite Hloop.
  - intros args c σ'. unfold Element.Find. rewrite Hthis; simpl.
    unfold Element.find. rewrite Hnode; simpl.
    destruct (xmlXPathEval _ _ _ _) as [r|]; simpl.
    + case_decide; simpl.
      * destruct (nodesetval r) as [l|]; simpl; [|done].
        destruct (Element.find_loop l σ) as [[vs σ1]|]; simpl; [|done].
        intros ?; simplify_eq. by eexists.
      * intros ?; simplify_eq. by eexists.
    + intros ?; simplify_eq. by eexists.
Qed.

(** C6, where the code fails it: [find] tests the result for null and
    for its type, but not the table of a node set.  When the evaluator
    answers a node set whose [nodesetval] is null, [find] reads
    [nodesetval->nodeNr] through the null pointer: the call does not
    complete, it returns no sequence. *)
Theorem find_null_table_does_not_complete (σ : state)
    (this element : positive) (n : xmlNode) (xpath : string)
    (r : xmlXPathObject) :
  Unwrap this σ = Some element →
  nodes σ !! element = Some n →
  xmlXPathEval (c_str xpath) (doc n) element (nodes σ) = Some r →
  xpath_type r = XPATH_NODESET →
  nodesetval r = None →
  Element.Find this [jsString xpath] σ = None.
Proof.
  intros Hthis Hnode Heval Hty Hnull.
  rewrite (Find_string σ this element) by done.
  unfold Element.find. rewrite Hnode; simpl. rewrite Heval.
  rewrite decide_True by done. by rewrite Hnull.
Qed.
End bindings.

Example find_on_sample :
  Element.Find (v8 := sample_v8) (engine := sample_engine)
      1%positive [jsString "!"] sample
    = Some (Return (jsArray []), sample) ∧
  Element.Find (v8 := sample_v8) (engine := sample_engine)
      1%positive [jsString "1"] sample
    = Some (Return (jsArray []), sample) ∧
  ∃ ws σ', Element.Find (v8 := sample_v8) (engine := sample_engine)
               1%positive [jsString "*"] sample
             = Some (Return (jsArray (jsWrapper <$> ws)), σ') ∧
           Forall2 (λ p w, JsObj_Unwrap p σ' = Some w)
                   [3%positive; 4%positive] ws.
Proof.
  destruct (find_degrades_to_empty (v8 := sample_v8) (engine := sample_engine)
              sample 1%positive 2%positive
              (mk_xmlNode (Some 1%positive) XML_ELEMENT_NODE "root"
                 [3%positive; 4%positive] [5%positive] (Some 1%positive)
                 (Some 1%positive) None None))
    as (Hfail & Hother & Hset & _).
  - reflexivity.
  - reflexivity.
  - split; [apply Hfail; reflexivity|].
    split; [apply (Hother "1" (mk_xmlXPathObject XPATH_NUMBER None));
            [reflexivity|discriminate]|].
    apply (Hset "*" (mk_xmlXPathObject XPATH_NODESET
                       (Some [3%positive; 4%positive])));
      [reflexivity|reflexivity|reflexivity|].
    intros p Hp. apply list_elem_of_In in Hp. simpl in Hp.
    destruct Hp as [<-|[<-|[]]]; eexists; reflexivity.
Qed.

Lemma find_null_table_does_not_complete_witness :
  Element.Find (v8 := sample_v8) (engine := sample_engine)
      1%positive [jsString "missing/child"] sample
    = None.
Proof.
  apply (find_null_table_does_not_complete (v8 := sample_v8)
           (engine := sample_engine) sample 1%positive 2%positive
           (mk_xmlNode (Some 1%positive) XML_ELEMENT_NODE "root"
              [3%positive; 4%positive] [5%positive] (Some 1%positive)
              (Some 1%positive) None None)
           "missing/child" (mk_xmlXPathObject XPATH_NODESET None)).
  - reflexivity.
  - reflexivity.
  - reflexivity.
  - reflexivity.
  - reflexivity.
Defined.

(** ** Attribute lookup *)


Lemma find_prop_Some (h : gmap positive xmlNode) (m : xmlNode → bool)
    (l : list positive) (p : positive) :
  find_prop h m l = Some p →
  p ∈ l ∧ ∃ a, h !! p = Some a ∧ m a = true.
Proof.
  induction l as [|q l IH]; simpl; [done|].
  destruct (h !! q) as [b|] eqn:Hq.
  - destruct (m b) eqn:Hb.
    + intros ?; simplify_eq. split; [by left|by exists b].
    + intros [Hin Hp]%IH. split; [by right|done].
  - intros [Hin Hp]%IH. split; [by right|done].
Qed.

Lemma find_prop_is_Some (h : gmap positive xmlNode) (m : xmlNode → bool)
    (l : list positive) (p : positive) (a : xmlNode) :
  p ∈ l → h !! p = Some a → m a = true → is_Some (find_prop h m l).
Proof.
  intros Hin Hp Ha.
  destruct (find_prop h m l) as [q|] eqn:Hfind; [by eexists|].
  exfalso. revert Hfind. induction l as [|q l IH]; simpl.
  - by apply not_elem_of_nil in Hin.
  - apply elem_of_cons in Hin as [<-|Hin].
    + rewrite Hp, Ha. done.
    + destruct (h !! q) as [b|]; [destruct (m b); [done|]|]; by apply IH.
Qed.

Section attributes.
Context {v8 : V8} {decl : Declarations}.


End attributes.



(** ** Names *)

Section names.
Context {v8 : V8} {decl : Declarations} {engine : Engine}.

Lemma xmlNewDocNode_element (d : positive) (nm : string) (c : option string)
    (h : gmap positive xmlNode) :
  (xmlNewDocNode d nm c h).1 = fresh (dom h) ∧
  ∃ kids, (xmlNewDocNode d nm c h).2 !! fresh (dom h)
            = Some (new_element d nm kids).
Proof.
  unfold xmlNewDocNode. destruct c as [content|]; simpl.
  - destruct (xmlStringGetNodeList _ _ _ _) as [kids h2]; simpl.
    split; [done|]. eexists. apply lookup_insert_eq.
  - split; [done|]. eexists. apply lookup_insert_eq.
Qed.

(** Reading the name through any wrapper of a live node. *)
Lemma Name_get (σ : state) (w element : positive) (n : xmlNode) :
  Unwrap w σ = Some element →
  nodes σ !! element = Some n →
  Element.Name w [] σ = Some (Return (jsString (name n)), σ).
Proof.
  intros Hw Hnode. unfold Element.Name. rewrite Hw; simpl.
  unfold Element.get_name. by rewrite Hnode.
Qed.

(** Renaming an element node through a wrapper. *)
Lemma Name_set (σ : state) (w element : positive) (n : xmlNode) (y : string) :
  Unwrap w σ = Some element →
  nodes σ !! element = Some n →
  type n = XML_ELEMENT_NODE →
  Element.Name w [jsString y] σ
    = Some (Return (jsWrapper w),
            mk_state (<[element := set_node_name (c_str y) n]> (nodes σ))
                     (objs σ)).
Proof.
  intros Hw Hnode Hty. unfold Element.Name. rewrite Hw.
  cbn [bind_opt Utf8Value].
  unfold Element.set_name. rewrite Hnode; cbn [bind_opt].
  unfold xmlNodeSetName. by rewrite Hnode, Hty.
Qed.

End names.

(** ** Text content *)

Section text.
Context {v8 : V8} {decl : Declarations} {engine : Engine}.

Lemma get_content_not_empty (σ : state) (xml_obj : positive) (v : value) :
  Element.get_content xml_obj σ = Some v → v ≠ jsString "".
Proof.
  unfold Element.get_content.
  destruct (xmlNodeGetContent (nodes σ) xml_obj) as [[|a s]|]; simpl;
    intros ?; by simplify_eq.
Qed.

(** C10: for an element, [text()] with no arguments is null when the
    concatenated text content is the empty string and is that content
    otherwise; no call of [text], whatever its arguments, returns the
    empty string. *)
Theorem text_empty_is_null (σ : state) (this element : positive)
    (n : xmlNode) :
  Unwrap this σ = Some element →
  nodes σ !! element = Some n →
  type n = XML_ELEMENT_NODE →
  ∃ c, xmlNodeGetContent (nodes σ) element = Some c ∧
       (c = "" → Element.Text this [] σ = Some (Return jsNull, σ)) ∧
       (c ≠ "" → Element.Text this [] σ = Some (Return (jsString c), σ)) ∧
       ∀ args r σ', Element.Text this args σ = Some (r, σ') →
                    r ≠ Return (jsString "").
Proof.
  intros Hthis Hnode Hty.
  exists (concat_strings
            (text_below (size (nodes σ)) (nodes σ) <$> children n)).
  assert (Hc : xmlNodeGetContent (nodes σ) element
               = Some (concat_strings
                         (text_below (size (nodes σ)) (nodes σ)
                            <$> children n))).
  { unfold xmlNodeGetContent. rewrite Hnode; simpl. by rewrite Hty. }
  split; [done|]. split; [|split].
  - intros Hempty. unfold Element.Text. rewrite Hthis; simpl.
    unfold Element.get_content. rewrite Hc; simpl. by rewrite Hempty.
  - intros Hfull. unfold Element.Text. rewrite Hthis; simpl.
    unfold Element.get_content. rewrite Hc; simpl.
    by destruct (concat_strings _).
  - intros args r σ'. unfold Element.Text. rewrite Hthis; simpl.
    destruct args as [|a args].
    + destruct (Element.get_content element σ) as [v|] eqn:Hv; simpl;
        [|done].
      intros ?; simplify_eq. intros ?; simplify_eq.
      by eapply get_content_not_empty.
    + destruct (Element.set_content element (Utf8Value a) σ); simpl;
        intros ?; by simplify_eq.
Qed.
End text.

Lemma text_empty_is_null_witness :
  Element.Text (v8 := sample_v8) (engine := sample_engine) 1%positive [] sample
    = Some (Return (jsString "hi"), sample).
Proof.
  destruct (text_empty_is_null (v8 := sample_v8) (engine := sample_engine)
              sample 1%positive 2%positive
              (mk_xmlNode (Some 1%positive) XML_ELEMENT_NODE "root"
                 [3%positive; 4%positive] [5%positive] (Some 1%positive)
                 (Some 1%positive) None None))
    as (c & Hc & _ & Hfull & _); [reflexivity|reflexivity|reflexivity|].
  vm_compute in Hc. injection Hc as <-. apply Hfull. discriminate.
Defined.

(** The element child of the sample root has no text: [text()] is null. *)
Example text_of_empty_child :
  ∃ w σ', Element.Child 1%positive [] sample = Some (Return (jsWrapper w), σ') ∧
          Element.Text (v8 := sample_v8) (engine := sample_engine) w [] σ'
            = Some (Return jsNull, σ').
Proof. eexists _, _. split; vm_compute; reflexivity. Qed.

(** ** Setting attributes *)

Lemma find_prop_ext (h h' : gmap positive xmlNode) (m : xmlNode → bool)
    (l : list positive) :
  (∀ p, p ∈ l → from_option m false (h !! p) = from_option m false (h' !! p)) →
  find_prop h m l = find_prop h' m l.
Proof.
  induction l as [|p l IH]; intros Hext; simpl; [done|].
  assert (Hp := Hext p (list_elem_of_here p l)).
  rewrite IH by (intros q Hq; apply Hext; by right).
  destruct (h !! p) as [a|], (h' !! p) as [a'|]; simpl in Hp.
  - by rewrite Hp.
  - by rewrite Hp.
  - by rewrite <- Hp.
  - done.
Qed.

Lemma find_prop_app_last (h : gmap positive xmlNode) (m : xmlNode → bool)
    (l : list positive) (a : positive) :
  find_prop h m (l ++ [a])
    = match find_prop h m l with
      | Some p => Some p
      | None => if from_option m false (h !! a) then Some a else None
      end.
Proof.
  induction l as [|p l IH]; simpl.
  - destruct (h !! a) as [x|]; simpl; [by destruct (m x)|done].
  - destruct (h !! p) as [x|]; [destruct (m x); [done|]|]; apply IH.
Qed.

Lemma find_prop_None_inv (h : gmap positive xmlNode) (m : xmlNode → bool)
    (l : list positive) (p : positive) (a : xmlNode) :
  find_prop h m l = None → p ∈ l → h !! p = Some a → m a = false.
Proof.
  intros Hnone Hin Hp. destruct (m a) eqn:Ha; [|done].
  destruct (find_prop_is_Some h m l p a Hin Hp Ha) as [q Hq]. congruence.
Qed.

Lemma has_name_no_ns_true (nm : string) (a : xmlNode) :
  has_name_no_ns nm a = true ↔ name a = nm ∧ ns a = None.
Proof.
  unfold has_name_no_ns. rewrite andb_true_iff, !bool_decide_eq_true. done.
Qed.

Lemma has_name_no_ns_same (nm : string) (a a' : xmlNode) :
  same_attrs a a' → has_name_no_ns nm a = has_name_no_ns nm a'.
Proof. intros (Hn & Hs & _). unfold has_name_no_ns. by rewrite Hn, Hs. Qed.

(** The attribute values of an element only depend on the names,
    namespaces, property chains and contents of the node records. *)
Lemma attr_value_ext (h h' : gmap positive xmlNode) (e : positive) (k : string) :
  (∀ p, option_Forall2 same_attrs (h !! p) (h' !! p)) →
  attr_value h e k = attr_value h' e k.
Proof.
  intros Hsame. unfold attr_value.
  assert (Hfind : ∀ l, find_prop h (has_name_no_ns k) l
                       = find_prop h' (has_name_no_ns k) l).
  { intros l. apply find_prop_ext. intros p _.
    destruct (Hsame p) as [x y Hxy|]; simpl; [|done].
    by apply has_name_no_ns_same. }
  destruct (Hsame e) as [n n' (_ & _ & Hprops & _)|]; simpl; [|done].
  rewrite Hprops, Hfind.
  destruct (find_prop h' (has_name_no_ns k) (properties n')) as [a|]; simpl;
    [|done].
  by destruct (Hsame a) as [x y (_ & _ & _ & Hc)|]; simpl.
Qed.

Lemma same_attrs_refl (n : xmlNode) : same_attrs n n.
Proof. by repeat split. Qed.

Lemma same_attrs_lookup_refl (h : gmap positive xmlNode) (p : positive) :
  option_Forall2 same_attrs (h !! p) (h !! p).
Proof. destruct (h !! p); constructor. apply same_attrs_refl. Qed.

(** Reading a [char*] twice reads the same string. *)
Lemma c_str_idemp (s : string) : c_str (c_str s) = c_str s.
Proof.
  induction s as [|c s IH]; simpl; [done|].
  destruct (Ascii.eqb c "000") eqn:Hc; simpl; [done|]. by rewrite Hc, IH.
Qed.

Lemma plain_name_set_whole {decl : Declarations} (e : positive) (nm : string) :
  xmlSplitQName3 nm = None → set_whole e nm.
Proof. intros Hnone prefix local Hsplit. congruence. Qed.

Section engine_attributes.
Context {decl : Declarations}.

Lemma bind_ns_fields (nsp : option positive) (x : xmlNode) :
  _private (bind_ns nsp x) = _private x ∧ type (bind_ns nsp x) = type x ∧
  name (bind_ns nsp x) = name x ∧
  properties (bind_ns nsp x) = properties x ∧
  content (bind_ns nsp x) = content x ∧ parent (bind_ns nsp x) = parent x.
Proof. by destruct nsp. Qed.

(** [xmlSetProp] comes down to one call of [xmlSetNsProp]. *)
Lemma xmlSetProp_ns (e : positive) (nm v : string)
    (h : gmap positive xmlNode) :
  ∃ nsp local, xmlSetProp e nm v h = xmlSetNsProp e nsp local v h.
Proof.
  unfold xmlSetProp.
  destruct (xmlSplitQName3 nm) as [[prefix local]|]; [|by eexists _, _].
  destruct (xmlSearchNs e prefix); by eexists _, _.
Qed.

Lemma xmlSetProp_whole (e : positive) (nm v : string)
    (h : gmap positive xmlNode) :
  set_whole e nm → xmlSetProp e nm v h = xmlSetNsProp e None nm v h.
Proof.
  intros Hwhole. unfold xmlSetProp.
  destruct (xmlSplitQName3 nm) as [[prefix local]|] eqn:Hsplit; [|done].
  by rewrite (Hwhole prefix local Hsplit).
Qed.

Lemma xmlSetNsProp_shape (h h' : gmap positive xmlNode) (e a : positive)
    (nsp : option positive) (nm v : string) :
  xmlSetNsProp e nsp nm v h = Some (a, h') →
  ∃ n, h !! e = Some n ∧ type n = XML_ELEMENT_NODE ∧
    ((∃ an, find_prop h (in_namespace nm nsp) (properties n) = Some a ∧
            h !! a = Some an ∧
            h' = <[a := bind_ns nsp (set_node_content (Some v) an)]> h) ∨
     (find_prop h (in_namespace nm nsp) (properties n) = None ∧
      a = fresh (dom h) ∧
      h' = <[e := set_properties (properties n ++ [a]) n]>
             (<[a := bind_ns nsp (new_attr e (doc n) nm v)]> h))).
Proof.
  unfold xmlSetNsProp. intros (n & Hn & Hrun)%bind_opt_Some.
  exists n. split; [done|]. case_decide as Hty; [|done]. split; [done|].
  destruct (find_prop h (in_namespace nm nsp) (properties n)) as [a0|] eqn:Hfind.
  - apply bind_opt_Some in Hrun as (an & Han & Hrun). simplify_eq.
    left. by exists an.
  - simplify_eq. by right.
Qed.

(** On an element, [xmlSetNsProp] returns an attribute. *)
Lemma xmlSetNsProp_runs (h : gmap positive xmlNode) (e : positive)
    (n : xmlNode) (nsp : option positive) (nm v : string) :
  h !! e = Some n →
  type n = XML_ELEMENT_NODE →
  is_Some (xmlSetNsProp e nsp nm v h).
Proof.
  intros He Hty. unfold xmlSetNsProp. rewrite He; simpl.
  rewrite decide_True by done.
  destruct (find_prop h (in_namespace nm nsp) (properties n)) as [a|] eqn:Hfind;
    [|by eexists].
  destruct (find_prop_Some _ _ _ _ Hfind) as (_ & an & Han & _).
  rewrite Han. by eexists.
Qed.

(** What [xmlSetProp] does to the store, whatever the name: it returns a
    live attribute, fills no slot, and leaves the element its type, slot
    and name, and its chain either as it was or one node longer. *)
Lemma xmlSetProp_runs (h : gmap positive xmlNode) (e : positive)
    (n : xmlNode) (nm v : string) :
  h !! e = Some n →
  type n = XML_ELEMENT_NODE →
  ∃ a h' an n',
    xmlSetProp e nm v h = Some (a, h') ∧
    h' !! a = Some an ∧
    (∀ w, _private an = Some w →
          ∃ an0, h !! a = Some an0 ∧ _private an0 = Some w) ∧
    h' !! e = Some n' ∧ type n' = XML_ELEMENT_NODE ∧
    _private n' = _private n ∧ name n' = name n ∧
    (properties n' = properties n ∨ properties n' = properties n ++ [a]).
Proof.
  intros He Hty.
  destruct (xmlSetProp_ns e nm v h) as (nsp & local & ->).
  destruct (xmlSetNsProp_runs h e n nsp local v He Hty) as [[a h'] Hrun].
  destruct (xmlSetNsProp_shape h h' e a nsp local v Hrun)
    as (n0 & Hn0 & _ & [(an & Hfind & Han & ->)|(Hfind & -> & ->)]);
    assert (n0 = n) as -> by congruence.
  - destruct (bind_ns_fields nsp (set_node_content (Some v) an))
      as (Hp & Ht & Hnm & Hpr & _).
    assert (Hback : ∀ w, _private (bind_ns nsp (set_node_content (Some v) an))
                         = Some w →
                         ∃ an0, h !! a = Some an0 ∧ _private an0 = Some w).
    { intros w Hw. rewrite Hp in Hw. by exists an. }
    destruct (decide (e = a)) as [->|Hne].
    + assert (an = n) as -> by congruence.
      eexists a, _, _, _. split; [done|].
      split; [apply lookup_insert_eq|]. split; [done|].
      split; [apply lookup_insert_eq|].
      rewrite Hp, Ht, Hnm, Hpr. simpl. repeat split; try done. by left.
    + exists a, (<[a := bind_ns nsp (set_node_content (Some v) an)]> h),
             (bind_ns nsp (set_node_content (Some v) an)), n.
      split; [done|]. split; [apply lookup_insert_eq|]. split; [done|].
      split; [by rewrite lookup_insert_ne|]. repeat split; try done. by left.
  - assert (Hne : e ≠ fresh (dom h)) by (by eapply fresh_node_ne).
    eexists _, _, _, _. split; [done|].
    split; [rewrite lookup_insert_ne by done; apply lookup_insert_eq|].
    split.
    { intros w Hw.
      destruct (bind_ns_fields nsp (new_attr e (doc n) local v)) as (Hp & _).
      rewrite Hp in Hw. discriminate Hw. }
    split; [apply lookup_insert_eq|]. repeat split; try done. by right.
Qed.

(** [xmlSetProp] fills no slot and empties none. *)
Lemma xmlSetProp_slots (h h' : gmap positive xmlNode) (e a : positive)
    (nm v : string) :
  xmlSetProp e nm v h = Some (a, h') →
  (∀ p pn' w, h' !! p = Some pn' → _private pn' = Some w →
              ∃ pn, h !! p = Some pn ∧ _private pn = Some w) ∧
  (∀ p pn, h !! p = Some pn →
           ∃ pn', h' !! p = Some pn' ∧ _private pn' = _private pn).
Proof.
  destruct (xmlSetProp_ns e nm v h) as (nsp & local & ->). intros Hrun.
  destruct (xmlSetNsProp_shape h h' e a nsp local v Hrun)
    as (n & Hn & Hty & [(an & Hfind & Han & ->)|(Hfind & -> & ->)]).
  - destruct (bind_ns_fields nsp (set_node_content (Some v) an)) as (Hp & _).
    split.
    + intros p pn' w Hq Hw. destruct (decide (p = a)) as [->|Hne].
      * rewrite lookup_insert_eq in Hq. simplify_eq. rewrite Hp in Hw.
        by exists an.
      * rewrite lookup_insert_ne in Hq by done. by exists pn'.
    + intros p pn Hq. destruct (decide (p = a)) as [->|Hne].
      * rewrite lookup_insert_eq. simplify_eq. by eexists.
      * rewrite lookup_insert_ne by done. by exists pn.
  - assert (Hfresh := fresh_node_unused h).
    assert (Hne : e ≠ fresh (dom h)) by (by eapply fresh_node_ne).
    destruct (bind_ns_fields nsp (new_attr e (doc n) local v)) as (Hp & _).
    split.
    + intros p pn' w Hq Hw. destruct (decide (p = e)) as [->|Hpe].
      * rewrite lookup_insert_eq in Hq. simplify_eq. by exists n.
      * rewrite lookup_insert_ne in Hq by done.
        destruct (decide (p = fresh (dom h))) as [->|Hpa].
        -- rewrite lookup_insert_eq in Hq. simplify_eq.
           rewrite Hp in Hw. discriminate Hw.
        -- rewrite lookup_insert_ne in Hq by done. by exists pn'.
    + intros p pn Hq. destruct (decide (p = e)) as [->|Hpe].
      * rewrite lookup_insert_eq. simplify_eq. by eexists.
      * assert (p ≠ fresh (dom h)) by (by eapply fresh_node_ne).
        rewrite !lookup_insert_ne by done. by exists pn.
Qed.

(** [xmlSetProp] of a name that is set whole, on an element: afterwards
    the attribute [nm] has the value [v] and every other attribute value
    is as before. *)
Lemma xmlSetProp_effect (h : gmap positive xmlNode) (e : positive)
    (n : xmlNode) (nm v : string) :
  h !! e = Some n →
  type n = XML_ELEMENT_NODE →
  set_whole e nm →
  ∃ a h' an n',
    xmlSetProp e nm v h = Some (a, h') ∧
    h' !! a = Some an ∧
    (∀ w, _private an = Some w →
          ∃ an0, h !! a = Some an0 ∧ _private an0 = Some w) ∧
    h' !! e = Some n' ∧ type n' = XML_ELEMENT_NODE ∧
    _private n' = _private n ∧
    (∀ k, attr_value h' e k
          = if decide (k = nm) then Some v else attr_value h e k).
Proof.
  intros He Hty Hwhole. rewrite (xmlSetProp_whole e nm v h Hwhole).
  unfold xmlSetNsProp. rewrite He; simpl.
  rewrite decide_True by done.
  destruct (find_prop h (has_name_no_ns nm) (properties n)) as [a|] eqn:Hfind.
  - destruct (find_prop_Some _ _ _ _ Hfind) as (Hin & an & Han & Hm).
    apply has_name_no_ns_true in Hm as [Hname Hns].
    rewrite Han; simpl.
    set (an' := set_node_content (Some v) an).
    set (h' := <[a := an']> h).
    assert (Ha' : h' !! a = Some an') by apply lookup_insert_eq.
    assert (He' : ∃ n', h' !! e = Some n' ∧ type n' = XML_ELEMENT_NODE ∧
                        _private n' = _private n ∧
                        properties n' = properties n).
    { destruct (decide (e = a)) as [->|Hne].
      - exists an'. simplify_eq. done.
      - exists n. unfold h'. by rewrite lookup_insert_ne. }
    destruct He' as (n' & He' & Hty' & Hpriv' & Hprops').
    exists a, h', an', n'. split; [done|]. split; [done|].
    split; [intros w0 Hw0; by exists an|]. repeat (split; [done|]).
    intros k. unfold attr_value. rewrite He, He'; simpl. rewrite Hprops'.
    assert (Hext : find_prop h' (has_name_no_ns k) (properties n)
                   = find_prop h (has_name_no_ns k) (properties n)).
    { apply find_prop_ext. intros p _. unfold h'.
      destruct (decide (p = a)) as [->|Hne].
      - rewrite lookup_insert_eq, Han. done.
      - by rewrite lookup_insert_ne. }
    rewrite Hext. case_decide as Hk.
    + subst k. rewrite Hfind; simpl. by rewrite Ha'.
    + destruct (find_prop h (has_name_no_ns k) (properties n)) as [p|] eqn:Hp;
        simpl; [|done].
      destruct (find_prop_Some _ _ _ _ Hp) as (_ & x & Hx & Hmx).
      apply has_name_no_ns_true in Hmx as [Hxn _].
      assert (p ≠ a) by (intros ->; simplify_eq; done).
      unfold h'. by rewrite lookup_insert_ne.
  - set (a := fresh (dom h)).
    assert (Hfresh : h !! a = None) by apply fresh_node_unused.
    assert (Hne : e ≠ a) by (intros ->; congruence).
    set (an := new_attr e (doc n) nm v).
    set (n' := set_properties (properties n ++ [a]) n).
    set (h' := <[e := n']> (<[a := an]> h)).
    assert (Ha' : h' !! a = Some an).
    { unfold h'. rewrite lookup_insert_ne by done. apply lookup_insert_eq. }
    assert (He' : h' !! e = Some n') by apply lookup_insert_eq.
    exists a, h', an, n'. split; [done|]. split; [done|].
    split; [intros w0 Hw0; discriminate Hw0|]. repeat (split; [done|]).
    intros k. unfold attr_value. rewrite He, He'; simpl.
    rewrite find_prop_app_last, Ha'; simpl.
    assert (Hmatch : ∀ m p, p ≠ a →
              (∀ x, m (set_properties (properties n ++ [a]) x) = m x) →
              from_option m false (h' !! p) = from_option m false (h !! p)).
    { intros m p Hp Hm. unfold h'.
      destruct (decide (p = e)) as [->|Hpe].
      - rewrite lookup_insert_eq, He. simpl. apply Hm.
      - by rewrite !lookup_insert_ne. }
    assert (Hcontent : ∀ p, p ≠ a →
              (let? x := h' !! p in content x) = (let? x := h !! p in content x)).
    { intros p Hp. unfold h'.
      destruct (decide (p = e)) as [->|Hpe].
      - by rewrite lookup_insert_eq, He.
      - by rewrite !lookup_insert_ne. }
    assert (Han : has_name_no_ns k an = bool_decide (k = nm)).
    { unfold has_name_no_ns, an; simpl. rewrite andb_true_r.
      apply bool_decide_ext. naive_solver. }
    rewrite Han. case_decide as Hk.
    + subst k. rewrite bool_decide_eq_true_2 by done.
      destruct (find_prop h' (has_name_no_ns nm) (properties n)) as [p|] eqn:Hp;
        simpl; [|by rewrite Ha'].
      destruct (find_prop_Some _ _ _ _ Hp) as (Hin & x & Hx & Hmx).
      destruct (decide (p = a)) as [->|Hpa]; [by rewrite Ha'|].
      exfalso.
      assert (Hm := Hmatch (has_name_no_ns nm) p Hpa (λ _, eq_refl)).
      rewrite Hx in Hm; simpl in Hm. rewrite Hmx in Hm.
      destruct (h !! p) as [y|] eqn:Hy; simpl in Hm; [|done].
      by rewrite (find_prop_None_inv _ _ _ p y Hfind Hin Hy) in Hm.
    + rewrite bool_decide_eq_false_2 by done.
      assert (Hext : find_prop h' (has_name_no_ns k) (properties n)
                     = find_prop h (has_name_no_ns k) (properties n)).
      { apply find_prop_ext. intros p _.
        destruct (decide (p = a)) as [->|Hpa].
        - rewrite Ha', Hfresh; simpl. rewrite Han.
          by apply bool_decide_eq_false_2.
        - by apply Hmatch. }
      rewrite Hext.
      destruct (find_prop h (has_name_no_ns k) (properties n)) as [p|] eqn:Hp;
        simpl; [|done].
      destruct (find_prop_Some _ _ _ _ Hp) as (_ & x & Hx & _).
      apply Hcontent. intros ->. congruence.
Qed.
End engine_attributes.

Lemma Utf8Value_string {v8 : V8} (s : string) :
  Utf8Value (jsString s) = c_str s.
Proof. done. Qed.

(** Reading the arguments of a call. *)
Ltac read_args :=
  cbn [arg lookup list_lookup default from_option id];
  rewrite ?Utf8Value_string.

Section setting.
Context {v8 : V8} {decl : Declarations} {engine : Engine}.

Lemma Utf8Value_c_str (v : value) : c_str (Utf8Value v) = Utf8Value v.
Proof. apply c_str_idemp. Qed.

(** One [set_attr], whatever the name: it completes, keeps the wrappers,
    and leaves the element its type, slot and name, and its chain either
    as it was or one node longer. *)
Lemma set_attr_chain (σ : state) (e w : positive) (n : xmlNode)
    (nm v : string) :
  nodes σ !! e = Some n →
  type n = XML_ELEMENT_NODE →
  _private n = Some w →
  Unwrap w σ = Some e →
  ∃ σ' n',
    Element.set_attr e nm v σ = Some σ' ∧
    nodes σ' !! e = Some n' ∧ type n' = XML_ELEMENT_NODE ∧
    _private n' = Some w ∧ Unwrap w σ' = Some e ∧
    name n' = name n ∧
    (properties n' = properties n ∨ ∃ a, properties n' = properties n ++ [a]).
Proof.
  intros He Hty Hpriv Hw.
  destruct (xmlSetProp_runs (nodes σ) e n (c_str nm) (c_str v) He Hty)
    as (a & h' & an & n' & Hset & Ha & _ & He' & Hty' & Hpriv' & Hname'
        & Hchain).
  destruct (get_or_build_effect (mk_state h' (objs σ)) a an Ha)
    as (w2 & σ3 & Hrun & Hslot & Hother & Hobjs & _ & Hold).
  simpl in *.
  assert (Hnode3 : ∃ n3, nodes σ3 !! e = Some n3 ∧
                         type n3 = type n' ∧ _private n3 = Some w ∧
                         name n3 = name n' ∧ properties n3 = properties n').
  { destruct (decide (e = a)) as [->|Hne].
    - simplify_eq. rewrite Hpriv in Hpriv'.
      destruct (Hold w Hpriv') as [-> ->]. simpl. by exists an.
    - exists n'. rewrite Hother by done. by rewrite Hpriv'. }
  destruct Hnode3 as (n3 & He3 & Hty3 & Hpriv3 & Hname3 & Hprops3).
  exists σ3, n3. split; [|split; [done|]].
  - unfold Element.set_attr, JsObj_Unwrap. rewrite He; simpl.
    rewrite Hpriv; simpl. unfold Attribute.New; simpl.
    rewrite Hw; simpl. read_args. rewrite Hset; simpl. by rewrite Hrun.
  - split; [congruence|]. split; [done|]. split.
    { unfold Unwrap in *. destruct (objs σ !! w) as [j|] eqn:Hj; [|done].
      by rewrite (Hobjs w j Hj). }
    split; [congruence|]. rewrite Hprops3.
    destruct Hchain as [->| ->]; [by left|right; by exists a].
Qed.

Lemma set_attr_effect (σ : state) (e w : positive) (n : xmlNode)
    (nm v : string) :
  nodes σ !! e = Some n →
  type n = XML_ELEMENT_NODE →
  _private n = Some w →
  Unwrap w σ = Some e →
  set_whole e (c_str nm) →
  ∃ σ' n',
    Element.set_attr e nm v σ = Some σ' ∧
    nodes σ' !! e = Some n' ∧ type n' = XML_ELEMENT_NODE ∧
    _private n' = Some w ∧
    (∀ u j, objs σ !! u = Some j → objs σ' !! u = Some j) ∧
    (∀ k, attr_value (nodes σ') e k
          = if decide (k = c_str nm) then Some (c_str v)
            else attr_value (nodes σ) e k).
Proof.
  intros He Hty Hpriv Hw Hwhole.
  destruct (xmlSetProp_effect (nodes σ) e n (c_str nm) (c_str v) He Hty Hwhole)
    as (a & h' & an & n' & Hset & Ha & _ & He' & Hty' & Hpriv' & Hval).
  destruct (get_or_build_effect (mk_state h' (objs σ)) a an Ha)
    as (w2 & σ3 & Hrun & Hslot & Hother & Hobjs & _ & Hold).
  simpl in *.
  assert (Hnode3 : ∃ n3, nodes σ3 !! e = Some n3 ∧
                         type n3 = XML_ELEMENT_NODE ∧ _private n3 = Some w).
  { destruct (decide (e = a)) as [->|Hne].
    - simplify_eq. rewrite Hpriv in Hpriv'.
      destruct (Hold w Hpriv') as [-> ->]. simpl. by exists an.
    - exists n'. rewrite Hother by done. by rewrite Hpriv'. }
  destruct Hnode3 as (n3 & He3 & Hty3 & Hpriv3).
  exists σ3, n3. split; [|repeat (split; [done|])].
  - unfold Element.set_attr, JsObj_Unwrap. rewrite He; simpl.
    rewrite Hpriv; simpl. unfold Attribute.New; simpl.
    rewrite Hw; simpl. read_args. rewrite Hset; simpl. by rewrite Hrun.
  - intros k. rewrite <- Hval. symmetry. apply attr_value_ext.
    intros p. destruct (decide (p = a)) as [->|Hne].
    + rewrite Ha, Hslot. constructor. by repeat split.
    + rewrite Hother by done. apply same_attrs_lookup_refl.
Qed.

(** The namespace path of [Attribute::New] looks the attribute up
    twice: the wrapper it returns is the one the first lookup gave. *)
Lemma New_with_namespace_same_wrapper (σ : state)
    (this ew e nw nsp : positive) (n : xmlNode) (nm v : string) :
  Unwrap ew σ = Some e →
  Unwrap nw σ = Some nsp →
  nodes σ !! e = Some n →
  type n = XML_ELEMENT_NODE →
  (∀ p pn w, nodes σ !! p = Some pn → _private pn = Some w →
             Unwrap w σ = Some p) →
  ∃ a h js_attr σa σ',
    xmlSetProp e (c_str nm) (c_str v) (nodes σ) = Some (a, h) ∧
    LIBXMLJS_GET_MAYBE_BUILD a (mk_state h (objs σ)) = Some (js_attr, σa) ∧
    Attribute.New this
        [jsWrapper ew; jsString nm; jsString v; jsWrapper nw] σ
      = Some (Return (jsWrapper js_attr), σ') ∧
    registered σ' a js_attr ∧
    (ns <$> nodes σ' !! a) = Some (Some nsp).
Proof.
  intros Hew Hnw He Hty Hcons.
  destruct (xmlSetProp_runs (nodes σ) e n (c_str nm) (c_str v) He Hty)
    as (a & h & an & n' & Hset & Ha & Hpriv & _).
  destruct (get_or_build_effect (mk_state h (objs σ)) a an Ha)
    as (w & σa & Hrun & Hslot & Hother & Hobjs & Hnew & Hold).
  simpl in *.
  assert (Hwa : Unwrap w σa = Some a).
  { destruct (_private an) as [w0|] eqn:Hp.
    - destruct (Hold w0 eq_refl) as [-> ->].
      destruct (Hpriv w0 eq_refl) as (an0 & Han0 & Hp0).
      by apply (Hcons a an0 w0).
    - unfold Unwrap. by rewrite (Hnew eq_refl). }
  set (na := set_ns (Some nsp) (set_private (Some w) an)).
  set (σn := mk_state (<[a := na]> (nodes σa)) (objs σa)).
  exists a, h, w, σa, σn. split; [done|]. split; [done|].
  assert (Hna : nodes σn !! a = Some na) by apply lookup_insert_eq.
  split; [|split].
  - unfold Attribute.New; simpl. rewrite Hew; simpl. read_args.
    rewrite Hset; simpl.
    unfold Unwrap in Hnw |- *. simpl. rewrite Hnw; simpl.
    rewrite Hrun; simpl. fold (Unwrap w σa). rewrite Hwa; simpl.
    unfold set_namespace. rewrite Hslot; simpl. fold na σn.
    by rewrite (get_or_build_registered σn a w na).
  - split; [unfold JsObj_Unwrap; by rewrite Hna|done].
  - by rewrite Hna.
Qed.

(** The loop over an attribute map completes, whatever the names, and
    leaves the element its type, slot and name. *)
Lemma set_attrs_runs (props : list (string * value)) (σ : state)
    (e w : positive) (n : xmlNode) :
  nodes σ !! e = Some n →
  type n = XML_ELEMENT_NODE →
  _private n = Some w →
  Unwrap w σ = Some e →
  ∃ σ' n',
    Element.set_attrs e props σ = Some σ' ∧
    nodes σ' !! e = Some n' ∧ type n' = XML_ELEMENT_NODE ∧
    _private n' = Some w ∧ Unwrap w σ' = Some e ∧ name n' = name n.
Proof.
  revert σ n. induction props as [|[k0 v0] props IH]; intros σ n He Hty Hp Hw.
  - by exists σ, n.
  - destruct (set_attr_chain σ e w n (Utf8Value (jsString k0)) (Utf8Value v0)
                He Hty Hp Hw)
      as (σ1 & n1 & Hset & He1 & Hty1 & Hp1 & Hw1 & Hname1 & _).
    destruct (IH σ1 n1 He1 Hty1 Hp1 Hw1)
      as (σ' & n' & Hrest & He' & Hty' & Hp' & Hw' & Hname').
    exists σ', n'. cbn [Element.set_attrs]. rewrite Hset; simpl.
    repeat (split; [done|]). congruence.
Qed.

Lemma set_attrs_effect (props : list (string * value)) (σ : state)
    (e w : positive) (n : xmlNode) :
  nodes σ !! e = Some n →
  type n = XML_ELEMENT_NODE →
  _private n = Some w →
  Unwrap w σ = Some e →
  (∀ k v, (k, v) ∈ props → plain_name k) →
  ∃ σ',
    Element.set_attrs e props σ = Some σ' ∧
    (∀ u j, objs σ !! u = Some j → objs σ' !! u = Some j) ∧
    (∀ k, attr_value (nodes σ') e k
          = match last_binding k props with
            | Some v => Some (Utf8Value v)
            | None => attr_value (nodes σ) e k
            end).
Proof.
  revert σ n.
  induction props as [|[k0 v0] props IH]; intros σ n He Hty Hp Hw Hplain.
  - exists σ. by repeat split.
  - destruct (Hplain k0 v0 (list_elem_of_here _ _)) as [Hnul Hsplit].
    assert (Hk0 : Utf8Value (jsString k0) = k0) by done.
    destruct (set_attr_effect σ e w n (Utf8Value (jsString k0)) (Utf8Value v0)
                He Hty Hp Hw)
      as (σ1 & n1 & Hset & He1 & Hty1 & Hp1 & Hobjs1 & Hval1).
    { apply plain_name_set_whole. by rewrite Hk0, Hnul. }
    assert (Hw1 : Unwrap w σ1 = Some e).
    { unfold Unwrap in *. destruct (objs σ !! w) as [j|] eqn:Hj; [|done].
      by rewrite (Hobjs1 w j Hj). }
    destruct (IH σ1 n1 He1 Hty1 Hp1 Hw1) as (σ' & Hrest & Hobjs & Hval).
    { intros k v Hin. apply (Hplain k v). by right. }
    exists σ'. cbn [Element.set_attrs]. rewrite Hset; simpl.
    split; [done|]. split; [intros u j Hu; by apply Hobjs, Hobjs1|].
    intros k. rewrite Hval. cbn [last_binding].
    destruct (last_binding k props) as [v'|]; [done|].
    rewrite Hval1, Hk0, Hnul, Utf8Value_c_str.
    destruct (decide (k0 = k)) as [->|Hne].
    + by rewrite decide_True.
    + by rewrite decide_False.
Qed.

(** C4, where the code fails it: [attr] called with a name and a value
    takes the default branch of the switch on the number of arguments;
    it throws the message that lists the one-argument forms and leaves
    the stores as they were, so that nothing is created or overwritten. *)
Theorem attr_two_arguments_throws (σ : state) (this element : positive)
    (a b : value) :
  Unwrap this σ = Some element →
  Element.Attr this [a; b] σ
    = Some (ThrowException
              "Bad argument(s): #attr(name) or #attr({name: value})",
            σ).
Proof. intros Hthis. unfold Element.Attr. by rewrite Hthis. Qed.

(** The map form: [attr] with a single map argument, whose keys are
    plain names, sets each pair in the order of the map's property list,
    so that for each key the last value stands and the other attributes
    keep their value. *)
Lemma Attr_map_effect (σ : state) (this element w : positive)
    (n : xmlNode) (props : list (string * value)) :
  Unwrap this σ = Some element →
  nodes σ !! element = Some n →
  type n = XML_ELEMENT_NODE →
  registered σ element w →
  (∀ k v, (k, v) ∈ props → plain_name k) →
  ∃ σ', Element.Attr this [jsObject props] σ
          = Some (Return (jsWrapper this), σ') ∧
        ∀ k, attr_value (nodes σ') element k
             = match last_binding k props with
               | Some v => Some (Utf8Value v)
               | None => attr_value (nodes σ) element k
               end.
Proof.
  intros Hthis Hnode Hty [Hreg Hw] Hplain.
  unfold JsObj_Unwrap in Hreg. rewrite Hnode in Hreg; simpl in Hreg.
  destruct (set_attrs_effect props σ element w n Hnode Hty Hreg Hw Hplain)
    as (σ' & Hrun & _ & Hval).
  exists σ'. split; [|done].
  unfold Element.Attr. rewrite Hthis; simpl. by rewrite Hrun.
Qed.
End setting.

Lemma attr_two_arguments_throws_witness :
  Element.Attr (v8 := sample_v8) (decl := sample_declarations) 1%positive
      [jsString "class"; jsString "wide"] sample
    = Some (ThrowException
              "Bad argument(s): #attr(name) or #attr({name: value})",
            sample) ∧
  attr_value (nodes sample) 2%positive "class" = None.
Proof.
  split; [|reflexivity].
  apply (attr_two_arguments_throws (v8 := sample_v8)
           (decl := sample_declarations) sample 1%positive 2%positive
           (jsString "class") (jsString "wide")).
  reflexivity.
Defined.

(** Nor does the two-argument form overwrite: [id] keeps its value. *)
Example attr_two_arguments_no_overwrite :
  Element.Attr (v8 := sample_v8) (decl := sample_declarations) 1%positive
      [jsString "id"; jsString "8"] sample
    = Some (ThrowException
              "Bad argument(s): #attr(name) or #attr({name: value})",
            sample) ∧
  attr_value (nodes sample) 2%positive "id" = Some "7".
Proof. split; vm_compute; reflexivity. Qed.

(** The one-argument map form on the sample root. *)
Example attr_map_on_sample :
  ∃ σ', Element.Attr (v8 := sample_v8) (decl := sample_declarations) 1%positive
            [jsObject [("a", jsString "1"); ("id", jsString "2");
                       ("a", jsString "3")]] sample
          = Some (Return (jsWrapper 1%positive), σ') ∧
        attr_value (nodes σ') 2%positive "a" = Some "3" ∧
        attr_value (nodes σ') 2%positive "id" = Some "2" ∧
        attr_value (nodes σ') 2%positive "b" = None.
Proof. eexists. repeat split; vm_compute; reflexivity. Qed.

(** ** Creating and renaming elements *)

Section creation.
Context {v8 : V8} {decl : Declarations} {engine : Engine}.

(** The store right after [Element::New] has built the wrapper of the
    new node, before the attribute map and the callback are looked at. *)
Lemma New_builds (σ : state) (d : positive) (nm : string) (c : option string) :
  ∃ elem h kids w σb,
    xmlNewDocNode d nm c (nodes σ) = (elem, h) ∧
    LIBXMLJS_GET_MAYBE_BUILD elem (mk_state h (objs σ)) = Some (w, σb) ∧
    nodes σb = <[elem := set_private (Some w) (new_element d nm kids)]> h ∧
    h !! elem = Some (new_element d nm kids) ∧
    Unwrap w σb = Some elem.
Proof.
  destruct (xmlNewDocNode_element d nm c (nodes σ)) as (Helem & kids & Hnew).
  destruct (xmlNewDocNode d nm c (nodes σ)) as [elem h] eqn:Hcreate.
  simpl in Helem, Hnew. subst elem.
  eexists _, h, kids, _, _. split; [done|].
  split; [by apply (get_or_build_fresh (mk_state h (objs σ)) _
                      (new_element d nm kids))|].
  simpl. split; [done|]. split; [done|].
  unfold Unwrap; simpl. by rewrite lookup_insert_eq.
Qed.

(** [Element::New] on a document wrapper: the element it builds, the
    store [σ1] in which the callback, if there is one, is called, and
    what the call returns. *)
Lemma New_runs (σ : state) (this dw d : positive) (a1 : value)
    (rest : list value) :
  Unwrap dw σ = Some d →
  (IsObject (arg 2 (jsWrapper dw :: a1 :: rest)) = true →
   is_Some (own_properties (arg 2 (jsWrapper dw :: a1 :: rest)))) →
  ∃ w σ1 elem n1,
    Element.New this (jsWrapper dw :: a1 :: rest) σ
      = match arg 4 (jsWrapper dw :: a1 :: rest) with
        | jsFunction callback =>
            let? σ2 := callback w σ1 in Some (Return (jsWrapper w), σ2)
        | _ => Some (Return (jsWrapper w), σ1)
        end ∧
    Unwrap w σ1 = Some elem ∧ nodes σ1 !! elem = Some n1 ∧
    type n1 = XML_ELEMENT_NODE ∧ name n1 = Utf8Value a1.
Proof.
  intros Hdoc Hprops.
  set (args := jsWrapper dw :: a1 :: rest) in *.
  set (c := if IsString (arg 3 args) then Some (Utf8Value (arg 3 args))
            else None).
  destruct (New_builds σ d (Utf8Value a1) c)
    as (elem & h & kids & w & σb & Hcreate & Hbuild & Hnodes & Hnew & Hw).
  assert (Hn : nodes σb !! elem
               = Some (set_private (Some w)
                         (new_element d (Utf8Value a1) kids))).
  { rewrite Hnodes. apply lookup_insert_eq. }
  assert (Hattrs : ∃ σ1 n1,
            (if IsObject (arg 2 args)
             then let? attributes := own_properties (arg 2 args) in
                  Element.set_attrs elem attributes σb
             else Some σb) = Some σ1 ∧
            Unwrap w σ1 = Some elem ∧ nodes σ1 !! elem = Some n1 ∧
            type n1 = XML_ELEMENT_NODE ∧ name n1 = Utf8Value a1).
  { destruct (IsObject (arg 2 args)); [|by eexists _, _].
    destruct (Hprops eq_refl) as [props ->]. simpl.
    destruct (set_attrs_runs props σb elem w _ Hn eq_refl eq_refl Hw)
      as (σ1 & n1 & Hset & Hn1 & Hty1 & _ & Hw1 & Hname1).
    by exists σ1, n1. }
  destruct Hattrs as (σ1 & n1 & Hset & Hw1 & Hn1 & Hty1 & Hname1).
  exists w, σ1, elem, n1. split; [|done].
  unfold Element.New. fold args. unfold args at 1.
  change (arg 0 args) with (jsWrapper dw).
  change (arg 1 args) with a1.
  cbn [Unwrap_value]. rewrite Hdoc; cbn [bind_opt].
  fold c. rewrite Hcreate. rewrite Hbuild; cbn [bind_opt].
  rewrite Hw; cbn [bind_opt]. rewrite Hset; cbn [bind_opt].
  by destruct (arg 4 args).
Qed.

(** C8, amended: names are read up to their first NUL character.  An
    element created with name [x], with or without attribute map,
    content and callback, answers [x], read so, to [name()] in the store
    [σ1] that the constructor returns, or in which it calls the callback
    when there is one; after [name(y)], every wrapper of that node
    answers [y], read so: the rename is a mutation of the native node. *)
Theorem name_after_create_and_rename (σ : state) (this dw d : positive)
    (x : string) (rest : list value) :
  Unwrap dw σ = Some d →
  (IsObject (arg 2 (jsWrapper dw :: jsString x :: rest)) = true →
   is_Some (own_properties (arg 2 (jsWrapper dw :: jsString x :: rest)))) →
  ∃ w σ1,
    Element.New this (jsWrapper dw :: jsString x :: rest) σ
      = match arg 4 (jsWrapper dw :: jsString x :: rest) with
        | jsFunction callback =>
            let? σ2 := callback w σ1 in Some (Return (jsWrapper w), σ2)
        | _ => Some (Return (jsWrapper w), σ1)
        end ∧
    Element.Name w [] σ1 = Some (Return (jsString (c_str x)), σ1) ∧
    ∀ y, ∃ σ2,
      Element.Name w [jsString y] σ1 = Some (Return (jsWrapper w), σ2) ∧
      ∀ w', Unwrap w' σ2 = Unwrap w σ2 →
            Element.Name w' [] σ2 = Some (Return (jsString (c_str y)), σ2).
Proof.
  intros Hdoc Hprops.
  destruct (New_runs σ this dw d (jsString x) rest Hdoc Hprops)
    as (w & σ1 & elem & n1 & Hnew & Hw1 & Hn1 & Hty1 & Hname1).
  exists w, σ1. split; [done|]. split.
  - rewrite (Name_get σ1 w elem n1) by done. by rewrite Hname1.
  - intros y. eexists. split.
    + by apply (Name_set σ1 w elem n1 y).
    + intros w' Hw'.
      rewrite (Name_get _ w' elem (set_node_name (c_str y) n1)); [done| |].
      * rewrite Hw'. exact Hw1.
      * apply lookup_insert_eq.
Qed.
End creation.

(** C8, as stated, fails: an element created with the name [a], NUL, [b]
    answers [a] to [name()]. *)
Lemma name_with_nul_counterexample :
  ∃ w σ1,
    Element.New (v8 := sample_v8) (decl := sample_declarations)
        (engine := sample_engine) 7%positive
        [jsWrapper 2%positive;
         jsString (String "a" (String "000" "b"))] sample
      = Some (Return (jsWrapper w), σ1) ∧
    Element.Name (v8 := sample_v8) w [] σ1
      = Some (Return (jsString "a"), σ1) ∧
    String "a" (String "000" "b") ≠ "a".
Proof.
  eexists _, _. split; [vm_compute; reflexivity|].
  split; [vm_compute; reflexivity|discriminate].
Qed.

(** Nor is the name that of the creation once a callback has run: the
    constructor calls it on the new wrapper, and it may rename the node. *)
Example name_after_renaming_callback :
  ∃ w σ1,
    Element.New (v8 := sample_v8) (decl := sample_declarations)
        (engine := sample_engine) 7%positive
        [jsWrapper 2%positive; jsString "x"; jsUndefined; jsUndefined;
         jsFunction (λ obj σ,
           let? r := Element.Name (v8 := sample_v8) obj [jsString "z"] σ in
           Some r.2)] sample
      = Some (Return (jsWrapper w), σ1) ∧
    Element.Name (v8 := sample_v8) w [] σ1
      = Some (Return (jsString "z"), σ1).
Proof. eexists _, _. split; vm_compute; reflexivity. Qed.

Lemma name_after_create_and_rename_witness :
  ∃ w σ1,
    Element.New (v8 := sample_v8) (decl := sample_declarations)
        (engine := sample_engine) 7%positive
        [jsWrapper 2%positive; jsString "x";
         jsObject [("xml:lang", jsString "en")]; jsString "text"] sample
      = Some (Return (jsWrapper w), σ1) ∧
    Element.Name (v8 := sample_v8) w [] σ1 = Some (Return (jsString "x"), σ1) ∧
    ∀ y, ∃ σ2,
      Element.Name (v8 := sample_v8) w [jsString y] σ1
        = Some (Return (jsWrapper w), σ2) ∧
      ∀ w', Unwrap w' σ2 = Unwrap w σ2 →
            Element.Name (v8 := sample_v8) w' [] σ2
              = Some (Return (jsString (c_str y)), σ2).
Proof.
  apply (name_after_create_and_rename (v8 := sample_v8)
           (decl := sample_declarations) (engine := sample_engine)
           sample 7%positive
           2%positive 1%positive "x"
           [jsObject [("xml:lang", jsString "en")]; jsString "text"]).
  - reflexivity.
  - intros _. by eexists.
Defined.

(** * Further properties of the binding *)

(** ** Steps that only build wrappers *)

Lemma same_tree_refl (h : gmap positive xmlNode) : same_tree h h.
Proof. by intros p. Qed.

Lemma same_tree_trans (h1 h2 h3 : gmap positive xmlNode) :
  same_tree h1 h2 → same_tree h2 h3 → same_tree h1 h3.
Proof. intros H12 H23 p. by rewrite H12. Qed.

Lemma only_wraps_refl (σ : state) : only_wraps σ σ.
Proof. split; [apply same_tree_refl|done]. Qed.

Lemma only_wraps_trans (σ1 σ2 σ3 : state) :
  only_wraps σ1 σ2 → only_wraps σ2 σ3 → only_wraps σ1 σ3.
Proof.
  intros (Ht & Hs & Ho & Hc) (Ht' & Hs' & Ho' & Hc').
  split; [by eapply same_tree_trans|].
  split; [intros q v Hq; by apply Hs', Hs|].
  split; [intros v j Hv; by apply Ho', Ho|].
  intros Hcons. by apply Hc', Hc.
Qed.

Lemma set_private_twice (w w' : option positive) (n : xmlNode) :
  set_private w (set_private w' n) = set_private w n.
Proof. done. Qed.

(** One registry lookup only builds a wrapper. *)
Lemma get_or_build_only_wraps (σ σ' : state) (node w : positive) :
  LIBXMLJS_GET_MAYBE_BUILD node σ = Some (w, σ') → only_wraps σ σ'.
Proof.
  intros Hrun.
  destruct (get_or_build_keeps σ σ' node w Hrun) as (Hw & _ & Hslots).
  destruct (nodes σ !! node) as [n|] eqn:Hnode;
    [|unfold LIBXMLJS_GET_MAYBE_BUILD in Hrun; by rewrite Hnode in Hrun].
  destruct (get_or_build_effect σ node n Hnode)
    as (w1 & σ1 & Hrun1 & Hslot & Hother & Hobjs & Hnew & Hold).
  rewrite Hrun in Hrun1. simplify_eq.
  split; [|split; [done|split; [done|]]].
  - intros p. destruct (decide (p = node)) as [->|Hne].
    + by rewrite Hnode, Hslot.
    + by rewrite Hother.
  - intros Hcons p pn v Hp Hv.
    destruct (decide (p = node)) as [->|Hne].
    + rewrite Hslot in Hp. simplify_eq. simpl in Hv. simplify_eq.
      destruct (_private n) as [w0|] eqn:Hn.
      * destruct (Hold w0 eq_refl) as [-> ->]. by eapply Hcons.
      * unfold Unwrap. by rewrite (Hnew eq_refl).
    + rewrite Hother in Hp by done.
      assert (Hv' := Hcons p pn v Hp Hv). unfold Unwrap in *.
      destruct (objs σ !! v) as [j|] eqn:Hj; [|done].
      by rewrite (Hobjs v j Hj).
Qed.

(** What a completed run of the wrapping loop gives. *)
Lemma find_loop_run (l : list positive) (σ σ' : state) (vs : list value) :
  Element.find_loop l σ = Some (vs, σ') →
  ∃ ws, vs = jsWrapper <$> ws ∧
        Forall2 (λ p w, JsObj_Unwrap p σ' = Some w) l ws ∧
        only_wraps σ σ'.
Proof.
  revert σ vs. induction l as [|p l IH]; intros σ vs; cbn [Element.find_loop].
  - intros ?; simplify_eq. exists []. split; [done|].
    split; [constructor|apply only_wraps_refl].
  - intros Hrun. apply bind_opt_Some in Hrun as ([w σ1] & Hp & Hrun).
    apply bind_opt_Some in Hrun as ([vs' σ2] & Hl & Hrun). simplify_eq.
    destruct (IH σ1 vs' Hl) as (ws & -> & Hall & Hwraps).
    destruct (get_or_build_keeps σ σ1 p w Hp) as (Hw & _).
    exists (w :: ws). split; [done|].
    split; [constructor; [by apply Hwraps|done]|].
    eapply only_wraps_trans; [by eapply get_or_build_only_wraps|done].
Qed.

Lemma same_tree_children (h h' : gmap positive xmlNode) (p : positive)
    (n n' : xmlNode) :
  same_tree h h' → h !! p = Some n → h' !! p = Some n' →
  children n = children n' ∧ properties n = properties n' ∧
  name n = name n' ∧ type n = type n' ∧ content n = content n' ∧
  parent n = parent n' ∧ ns n = ns n' ∧ doc n = doc n'.
Proof.
  intros Ht Hn Hn'. specialize (Ht p). rewrite Hn, Hn' in Ht.
  simpl in Ht. unfold set_private in Ht.
  injection Ht as Hty Hname Hch Hpr Hpa Hdoc Hco Hns. done.
Qed.

Lemma same_tree_live (h h' : gmap positive xmlNode) (p : positive)
    (n : xmlNode) :
  same_tree h h' → h !! p = Some n → is_Some (h' !! p).
Proof.
  intros Ht Hn. specialize (Ht p). rewrite Hn in Ht.
  destruct (h' !! p); [by eexists|done].
Qed.

Lemma only_wraps_Unwrap (σ σ' : state) (w p : positive) :
  only_wraps σ σ' → Unwrap w σ = Some p → Unwrap w σ' = Some p.
Proof.
  intros (_ & _ & Hobjs & _) Hw. unfold Unwrap in *.
  destruct (objs σ !! w) as [j|] eqn:Hj; [|done].
  by rewrite (Hobjs w j Hj).
Qed.

Section accessors.
Context {v8 : V8} {decl : Declarations} {engine : Engine}.

Lemma get_child_run (σ σ' : state) (e : positive) (idx : number) (v : value) :
  Element.get_child e idx σ = Some (v, σ') → only_wraps σ σ'.
Proof.
  unfold Element.get_child. intros (n & Hn & Hrun)%bind_opt_Some.
  destruct (Element.get_child_loop (children n) 1 idx) as [c|].
  - apply bind_opt_Some in Hrun as ([w σ1] & Hc & Hrun). simplify_eq.
    by eapply get_or_build_only_wraps.
  - simplify_eq. apply only_wraps_refl.
Qed.

Lemma get_attr_run (σ σ' : state) (e : positive) (nm : string) (v : value) :
  Element.get_attr e nm σ = Some (v, σ') → only_wraps σ σ'.
Proof.
  unfold Element.get_attr. intros (n & Hn & Hrun)%bind_opt_Some.
  destruct (xmlHasProp (nodes σ) e nm) as [a|].
  - apply bind_opt_Some in Hrun as ([w σ1] & Ha & Hrun). simplify_eq.
    by eapply get_or_build_only_wraps.
  - simplify_eq. apply only_wraps_refl.
Qed.

Lemma find_run (σ σ' : state) (e : positive) (xpath : string) (v : value) :
  Element.find e xpath σ = Some (v, σ') → only_wraps σ σ'.
Proof.
  unfold Element.find. intros (n & Hn & Hrun)%bind_opt_Some.
  destruct (xmlXPathEval xpath (doc n) e (nodes σ)) as [r|];
    [|simplify_eq; apply only_wraps_refl].
  case_decide; [|simplify_eq; apply only_wraps_refl].
  apply bind_opt_Some in Hrun as (l & Hl & Hrun).
  apply bind_opt_Some in Hrun as ([vs σ1] & Hloop & Hrun). simplify_eq.
  by destruct (find_loop_run l σ σ' vs Hloop) as (ws & _ & _ & Hw).
Qed.

Lemma get_attrs_run (σ σ' : state) (e : positive) (v : value) :
  Element.get_attrs e σ = Some (v, σ') → only_wraps σ σ'.
Proof.
  unfold Element.get_attrs. intros (n & Hn & Hrun)%bind_opt_Some.
  destruct (properties n) as [|a l]; [simplify_eq; apply only_wraps_refl|].
  apply bind_opt_Some in Hrun as ([vs σ1] & Hloop & Hrun). simplify_eq.
  by destruct (find_loop_run _ σ σ' vs Hloop) as (ws & _ & _ & Hw).
Qed.

Lemma get_children_run (σ σ' : state) (e : positive) (v : value) :
  Element.get_children e σ = Some (v, σ') → only_wraps σ σ'.
Proof.
  unfold Element.get_children. intros (n & Hn & Hrun)%bind_opt_Some.
  destruct (children n) as [|c l]; [simplify_eq; apply only_wraps_refl|].
  apply bind_opt_Some in Hrun as ([vs σ1] & Hloop & Hrun). simplify_eq.
  by destruct (find_loop_run _ σ σ' vs Hloop) as (ws & _ & _ & Hw).
Qed.

(** X1: the read accessors [child], [attr(name)], [find], [attrs] and
    [children] never change the tree: a call that completes leaves every
    node record as it was up to its [_private] slot, keeps every filled
    slot and every wrapper, and keeps the registry consistent. *)
Theorem read_accessors_only_wrap (σ σ' : state) (this : positive)
    (r : completion) :
  (∃ args, Element.Child this args σ = Some (r, σ')) ∨
  (∃ nm, Element.Attr this [jsString nm] σ = Some (r, σ')) ∨
  (∃ args, Element.Find this args σ = Some (r, σ')) ∨
  (∃ args, Element.Attrs this args σ = Some (r, σ')) ∨
  (∃ args, Element.Children this args σ = Some (r, σ')) →
  only_wraps σ σ'.
Proof.
  intros [[args Hrun]|[[nm Hrun]|[[args Hrun]|[[args Hrun]|[args Hrun]]]]].
  - unfold Element.Child in Hrun.
    apply bind_opt_Some in Hrun as (e & He & Hrun).
    destruct args as [|a args].
    + apply bind_opt_Some in Hrun as ([v σ1] & Hc & Hrun). simplify_eq.
      by eapply get_child_run.
    + destruct a; try (simplify_eq; apply only_wraps_refl).
      apply bind_opt_Some in Hrun as ([v σ1] & Hc & Hrun). simplify_eq.
      by eapply get_child_run.
  - unfold Element.Attr in Hrun.
    apply bind_opt_Some in Hrun as (e & He & Hrun). simpl in Hrun.
    apply bind_opt_Some in Hrun as ([v σ1] & Hc & Hrun). simplify_eq.
    by eapply get_attr_run.
  - unfold Element.Find in Hrun.
    apply bind_opt_Some in Hrun as (e & He & Hrun).
    apply bind_opt_Some in Hrun as ([v σ1] & Hc & Hrun). simplify_eq.
    by eapply find_run.
  - unfold Element.Attrs in Hrun.
    apply bind_opt_Some in Hrun as (e & He & Hrun).
    apply bind_opt_Some in Hrun as ([v σ1] & Hc & Hrun). simplify_eq.
    by eapply get_attrs_run.
  - unfold Element.Children in Hrun.
    apply bind_opt_Some in Hrun as (e & He & Hrun).
    apply bind_opt_Some in Hrun as ([v σ1] & Hc & Hrun). simplify_eq.
    by eapply get_children_run.
Qed.
End accessors.

(** ** Listing children and attributes *)

Lemma node_set_add_all (acc l : list positive) :
  NoDup (acc ++ l) → foldl xmlXPathNodeSetAdd acc l = acc ++ l.
Proof.
  revert acc. induction l as [|x l IH]; intros acc Hnd; simpl.
  - by rewrite app_nil_r.
  - unfold xmlXPathNodeSetAdd at 2. rewrite decide_False.
    + rewrite IH; [by rewrite <- app_assoc|]. by rewrite <- app_assoc.
    + apply NoDup_app in Hnd as (_ & Hdisj & _).
      intros Hx. apply (Hdisj x Hx). by left.
Qed.

(** Gathering a chain of distinct children gives the chain. *)
Lemma node_set_of_children (c : positive) (l : list positive) :
  NoDup (c :: l) →
  foldl xmlXPathNodeSetAdd (xmlXPathNodeSetCreate (head (c :: l))) (c :: l)
    = c :: l.
Proof.
  intros Hnd. simpl. unfold xmlXPathNodeSetAdd at 2.
  rewrite decide_True by (by left). by apply (node_set_add_all [c] l).
Qed.

Section listing.
Context {v8 : V8} {decl : Declarations} {engine : Engine}.

(** The early return of [get_attrs] agrees with the loop on an empty
    chain. *)
Lemma get_attrs_loop (σ : state) (e : positive) (n : xmlNode) :
  nodes σ !! e = Some n →
  Element.get_attrs e σ
    = let? (vs, σ') := Element.find_loop (properties n) σ in
      Some (jsArray vs, σ').
Proof.
  intros Hn. unfold Element.get_attrs. rewrite Hn; simpl.
  by destruct (properties n).
Qed.

(** X2: [children()] on an element whose child chain holds distinct live
    nodes returns an array with, position by position, the wrapper
    registered for each child; the array is empty when there is no
    child. *)
Theorem children_lists_all (σ : state) (this element : positive)
    (n : xmlNode) (args : list value) :
  Unwrap this σ = Some element →
  nodes σ !! element = Some n →
  NoDup (children n) →
  (∀ c, c ∈ children n → is_Some (nodes σ !! c)) →
  ∃ ws σ', Element.Children this args σ
             = Some (Return (jsArray (jsWrapper <$> ws)), σ') ∧
           Forall2 (λ p w, JsObj_Unwrap p σ' = Some w) (children n) ws ∧
           (children n = [] → ws = [] ∧ σ' = σ).
Proof.
  intros Hthis Hnode Hnd Hlive.
  unfold Element.Children. rewrite Hthis; simpl.
  unfold Element.get_children. rewrite Hnode; simpl.
  destruct (children n) as [|c l] eqn:Hch.
  - exists [], σ. simpl. split; [done|]. split; [constructor|done].
  - rewrite node_set_of_children by done.
    destruct (find_loop_wraps (c :: l) σ Hlive) as (ws & σ' & Hloop & Hall & _).
    exists ws, σ'. rewrite Hloop; simpl. split; [done|]. split; [done|].
    intros Hnil. discriminate Hnil.
Qed.

(** X3: [attrs()] returns, in the order of the [properties] chain, the
    wrapper registered for each attribute, and the empty array for an
    element without attributes. *)
Theorem attrs_lists_all (σ : state) (this element : positive)
    (n : xmlNode) (args : list value) :
  Unwrap this σ = Some element →
  nodes σ !! element = Some n →
  (∀ a, a ∈ properties n → is_Some (nodes σ !! a)) →
  ∃ ws σ', Element.Attrs this args σ
             = Some (Return (jsArray (jsWrapper <$> ws)), σ') ∧
           Forall2 (λ p w, JsObj_Unwrap p σ' = Some w) (properties n) ws ∧
           (properties n = [] → ws = [] ∧ σ' = σ).
Proof.
  intros Hthis Hnode Hlive.
  unfold Element.Attrs. rewrite Hthis; simpl.
  rewrite (get_attrs_loop σ element n Hnode).
  destruct (find_loop_wraps (properties n) σ Hlive)
    as (ws & σ' & Hloop & Hall & _).
  exists ws, σ'. rewrite Hloop; simpl. split; [done|]. split; [done|].
  intros Hnil. rewrite Hnil in Hloop, Hall. simpl in Hloop.
  apply Forall2_nil_inv_l in Hall. by simplify_eq.
Qed.

Lemma get_child_registered (σ : state) (e c w : positive) (n : xmlNode)
    (i : Z) :
  nodes σ !! e = Some n →
  1 ≤ i →
  children n !! Z.to_nat (i - 1) = Some c →
  JsObj_Unwrap c σ = Some w →
  Element.get_child e (of_Z i) σ = Some (jsWrapper w, σ).
Proof.
  intros Hn Hi Hc Hw. unfold Element.get_child. rewrite Hn; simpl.
  rewrite get_child_loop_offset by lia. rewrite Hc.
  unfold JsObj_Unwrap in Hw. apply bind_opt_Some in Hw as (cn & Hcn & Hw).
  by rewrite (get_or_build_registered σ c w cn).
Qed.

(** X4: after [children()], [child(i + 1)] is the element at index [i] of
    the array that [children()] returned, and it changes nothing more. *)
Theorem child_after_children (σ σ' : state) (this element : positive)
    (n : xmlNode) (args : list value) (vs : list value) (i : nat) (v : value) :
  Unwrap this σ = Some element →
  nodes σ !! element = Some n →
  NoDup (children n) →
  Element.Children this args σ = Some (Return (jsArray vs), σ') →
  vs !! i = Some v →
  Element.Child this [jsNumber (of_Z (Z.of_nat i + 1))] σ'
    = Some (Return v, σ').
Proof.
  intros Hthis Hnode Hnd Hrun Hv.
  unfold Element.Children in Hrun. rewrite Hthis in Hrun; simpl in Hrun.
  apply bind_opt_Some in Hrun as ([v0 σ1] & Hget & Hrun). simplify_eq.
  assert (Hw := get_children_run σ σ' element _ Hget).
  unfold Element.get_children in Hget. rewrite Hnode in Hget; simpl in Hget.
  destruct (children n) as [|c l] eqn:Hch;
    [simplify_eq; by rewrite lookup_nil in Hv|].
  rewrite node_set_of_children in Hget by done.
  apply bind_opt_Some in Hget as ([vs' σ1] & Hloop & Hget). simplify_eq.
  destruct (find_loop_run (c :: l) σ σ' vs Hloop) as (ws & -> & Hall & _).
  rewrite list_lookup_fmap in Hv.
  destruct (ws !! i) as [w|] eqn:Hwi; [|done]. simpl in Hv. simplify_eq.
  destruct (Forall2_lookup_r _ _ _ _ _ Hall Hwi) as (p & Hp & Hreg).
  destruct (same_tree_live (nodes σ) (nodes σ') element n) as [n' Hn'];
    [apply Hw|done|].
  destruct (same_tree_children (nodes σ) (nodes σ') element n n')
    as (Hchildren & _); [apply Hw|done|done|].
  rewrite (Child_number σ' this element)
    by (by eapply only_wraps_Unwrap).
  rewrite (get_child_registered σ' element p w n'); [done|done|lia| |done].
  rewrite <- Hchildren, Hch.
  by replace (Z.to_nat (Z.of_nat i + 1 - 1)) with i by lia.
Qed.

Lemma get_child_twice (σ σ' : state) (e : positive) (idx : number)
    (v : value) :
  Element.get_child e idx σ = Some (v, σ') →
  Element.get_child e idx σ' = Some (v, σ').
Proof.
  intros Hrun. assert (Hw := get_child_run σ σ' e idx v Hrun).
  unfold Element.get_child in Hrun |- *.
  apply bind_opt_Some in Hrun as (n & Hn & Hrun).
  destruct (same_tree_live (nodes σ) (nodes σ') e n) as [n' Hn'];
    [apply Hw|done|].
  destruct (same_tree_children (nodes σ) (nodes σ') e n n')
    as (Hchildren & _); [apply Hw|done|done|].
  rewrite Hn'; simpl. rewrite <- Hchildren.
  destruct (Element.get_child_loop (children n) 1 idx) as [c|];
    [|by simplify_eq].
  apply bind_opt_Some in Hrun as ([w σ1] & Hc & Hrun). simplify_eq.
  destruct (get_or_build_keeps σ σ' c w Hc) as (Hreg & _).
  unfold JsObj_Unwrap in Hreg.
  apply bind_opt_Some in Hreg as (cn & Hcn & Hreg).
  by rewrite (get_or_build_registered σ' c w cn).
Qed.

(** X5: [child] is stable: a second call with the same arguments, in the
    store the first call left, returns the same completion (for a child,
    the very same wrapper) and changes nothing. *)
Theorem child_twice_same_wrapper (σ σ' : state) (this : positive)
    (args : list value) (r : completion) :
  Element.Child this args σ = Some (r, σ') →
  Element.Child this args σ' = Some (r, σ').
Proof.
  intros Hrun. unfold Element.Child in Hrun |- *.
  apply bind_opt_Some in Hrun as (e & He & Hrun).
  destruct args as [|a args].
  - apply bind_opt_Some in Hrun as ([v σ1] & Hc & Hrun). simplify_eq.
    rewrite (only_wraps_Unwrap σ σ' this e (get_child_run _ _ _ _ _ Hc) He).
    simpl. by rewrite (get_child_twice σ σ' e (of_Z 1) v).
  - destruct a; try (simplify_eq; by rewrite He).
    apply bind_opt_Some in Hrun as ([v σ1] & Hc & Hrun). simplify_eq.
    rewrite (only_wraps_Unwrap σ σ' this e (get_child_run _ _ _ _ _ Hc) He).
    simpl. by rewrite (get_child_twice σ σ' e x v).
Qed.
End listing.

(** ** Indices that are not integers *)

Lemma get_child_loop_round_up (l : list positive) (j k : Z) (idx : number) :
  lt_number (k - 1) idx = true →
  lt_number k idx = false →
  j ≤ k →
  Element.get_child_loop l j idx = Element.get_child_loop l j (of_Z k).
Proof.
  intros Hlow Hhigh. revert j.
  induction l as [|c l IH]; intros j Hj; cbn [Element.get_child_loop]; [done|].
  rewrite lt_number_of_Z. case_bool_decide as Hlt.
  - rewrite (lt_number_mono j (k - 1) idx) by (done || lia).
    apply IH. lia.
  - assert (j = k) as -> by lia. by rewrite Hhigh.
Qed.

(** X6: an index between two integers is rounded up: when [k - 1 < idx]
    and not [k < idx], [child(idx)] is [child(k)]. *)
Theorem child_index_rounds_up (σ : state) (this : positive) (idx : number)
    (k : Z) :
  1 ≤ k →
  lt_number (k - 1) idx = true →
  lt_number k idx = false →
  Element.Child this [jsNumber idx] σ
    = Element.Child this [jsNumber (of_Z k)] σ.
Proof.
  intros Hk Hlow Hhigh. unfold Element.Child.
  destruct (Unwrap this σ) as [e|]; simpl; [|done].
  unfold Element.get_child. destruct (nodes σ !! e) as [n|]; simpl; [|done].
  by rewrite (get_child_loop_round_up (children n) 1 k idx).
Qed.

(** ** More on the destruction notification *)

Lemma on_libxml_destruct_shape (σ σ' : state) (node : positive) :
  on_libxml_destruct node σ = Some σ' →
  ∃ slot sn, nodes σ !! slot = Some sn ∧
             σ' = mk_state (<[slot := set_private None sn]> (nodes σ))
                           (delete_JsObj (_private sn) (objs σ)) ∧
             ∃ n, nodes σ !! node = Some n ∧
                  (if decide (type n = XML_DOCUMENT_NODE)
                   then doc n else Some node) = Some slot.
Proof.
  unfold on_libxml_destruct. intros (n & Hn & Hrun)%bind_opt_Some.
  destruct (decide (type n = XML_DOCUMENT_NODE)) as [Hty|Hty].
  - rewrite Hty in Hrun.
    apply bind_opt_Some in Hrun as (d & Hd & Hrun).
    apply bind_opt_Some in Hrun as (dn & Hdn & Hrun). simplify_eq.
    exists d, dn. split; [done|]. split; [done|].
    exists n. split; [done|]. by rewrite decide_True.
  - exists node, n. split; [done|]. split.
    + destruct (type n); by simplify_eq.
    + exists n. split; [done|]. by rewrite decide_False.
Qed.

(** X7: the notification is idempotent: notifying the same node a second
    time, in the store the first notification left, changes nothing. *)
Theorem destruct_twice (g : xmlGlobalState) (σ σ' : state) (node : positive) :
  notify_free (LibXMLJS g) node σ = Some σ' →
  notify_free (LibXMLJS g) node σ' = Some σ'.
Proof.
  unfold notify_free, LibXMLJS, xmlDeregisterNodeDefault; simpl.
  intros Hrun.
  destruct (on_libxml_destruct_shape σ σ' node Hrun)
    as (slot & sn & Hsn & -> & n & Hn & Hslot).
  assert (Hn' : ∃ n', <[slot := set_private None sn]> (nodes σ) !! node
                        = Some n' ∧ type n' = type n ∧ doc n' = doc n).
  { destruct (decide (node = slot)) as [->|Hne].
    - rewrite lookup_insert_eq. simplify_eq. by eexists.
    - rewrite lookup_insert_ne by done. by exists n. }
  destruct Hn' as (n' & Hn' & Hty & Hdoc).
  unfold on_libxml_destruct; simpl. rewrite Hn'; simpl.
  rewrite Hty. destruct (decide (type n = XML_DOCUMENT_NODE)) as [Hd|Hd].
  - rewrite Hd, Hdoc, Hslot; simpl. rewrite lookup_insert_eq; simpl.
    by rewrite insert_insert_eq.
  - simplify_eq. rewrite lookup_insert_eq in Hn'. simplify_eq.
    transitivity (Some (mk_state
            (<[slot := set_private None (set_private None sn)]>
               (<[slot := set_private None sn]> (nodes σ)))
            (delete_JsObj (_private sn) (objs σ)))).
    + simpl in *. by destruct (type sn).
    + by rewrite insert_insert_eq.
Qed.

(** X8: the notification keeps the registry consistent and changes no
    node but for the slot it empties: the tree is the same afterwards. *)
Theorem destruct_keeps_consistent (g : xmlGlobalState) (σ σ' : state)
    (node : positive) :
  consistent σ →
  notify_free (LibXMLJS g) node σ = Some σ' →
  consistent σ' ∧ same_tree (nodes σ) (nodes σ').
Proof.
  unfold notify_free, LibXMLJS, xmlDeregisterNodeDefault; simpl.
  intros Hcons Hrun.
  destruct (on_libxml_destruct_shape σ σ' node Hrun)
    as (slot & sn & Hsn & -> & _). split.
  - intros p pn w Hp Hw. simpl in Hp.
    destruct (decide (p = slot)) as [->|Hne].
    + rewrite lookup_insert_eq in Hp. by simplify_eq.
    + rewrite lookup_insert_ne in Hp by done.
      assert (Hu := Hcons p pn w Hp Hw).
      unfold Unwrap in *; simpl. rewrite delete_JsObj_lookup.
      rewrite decide_False; [done|].
      intros Hsame. apply Hne.
      assert (Hs := Hcons slot sn w Hsn Hsame). unfold Unwrap in Hs.
      congruence.
  - intros p. simpl. destruct (decide (p = slot)) as [->|Hne].
    + by rewrite lookup_insert_eq, Hsn.
    + by rewrite lookup_insert_ne.
Qed.

(** ** More on setting attributes *)

Section more_setting.
Context {v8 : V8} {decl : Declarations} {engine : Engine}.

(** The three-argument constructor call that [set_attr] makes. *)
Lemma Attribute_New_three (σ σ' : state) (this w : positive) (nm v : string)
    (r : completion) :
  Attribute.New this [jsWrapper w; jsString nm; jsString v] σ = Some (r, σ') →
  ∃ e a h wa,
    Unwrap w σ = Some e ∧
    xmlSetProp e (c_str nm) (c_str v) (nodes σ) = Some (a, h) ∧
    LIBXMLJS_GET_MAYBE_BUILD a (mk_state h (objs σ)) = Some (wa, σ') ∧
    r = Return (jsWrapper wa).
Proof.
  unfold Attribute.New; simpl. read_args.
  intros (e & He & Hrun)%bind_opt_Some.
  apply bind_opt_Some in Hrun as ([a h] & Hset & Hrun). simpl in Hrun.
  apply bind_opt_Some in Hrun as ([wa σ1] & Hbuild & Hrun). simplify_eq.
  by exists e, a, h, wa.
Qed.

Lemma set_attr_run (σ σ' : state) (e : positive) (nm v : string) :
  Element.set_attr e nm v σ = Some σ' →
  ∃ w e0 a h wa,
    JsObj_Unwrap e σ = Some w ∧ Unwrap w σ = Some e0 ∧
    xmlSetProp e0 (c_str nm) (c_str v) (nodes σ) = Some (a, h) ∧
    LIBXMLJS_GET_MAYBE_BUILD a (mk_state h (objs σ)) = Some (wa, σ').
Proof.
  unfold Element.set_attr. intros (w & Hw & Hrun)%bind_opt_Some.
  apply bind_opt_Some in Hrun as ([r σ1] & Hnew & Hrun). simplify_eq.
  destruct (Attribute_New_three _ _ _ _ _ _ _ Hnew)
    as (e0 & a & h & wa & He0 & Hset & Hbuild & _).
  by exists w, e0, a, h, wa.
Qed.

Lemma set_attr_keeps (σ σ' : state) (e : positive) (nm v : string) :
  Element.set_attr e nm v σ = Some σ' →
  (∀ u j, objs σ !! u = Some j → objs σ' !! u = Some j) ∧
  (consistent σ → consistent σ').
Proof.
  intros Hrun.
  destruct (set_attr_run σ σ' e nm v Hrun)
    as (w & e0 & a & h & wa & Hw & He0 & Hset & Hbuild).
  destruct (get_or_build_only_wraps _ _ _ _ Hbuild) as (_ & _ & Hobjs & Hc).
  split; [done|]. intros Hcons. apply Hc.
  intros p pn' u Hp Hu. simpl in Hp.
  destruct (xmlSetProp_slots _ _ _ _ _ _ Hset) as (Hback & _).
  destruct (Hback p pn' u Hp Hu) as (pn & Hpn & Hpu).
  by apply (Hcons p pn u).
Qed.

Lemma set_attrs_keeps (props : list (string * value)) (σ σ' : state)
    (e : positive) :
  Element.set_attrs e props σ = Some σ' →
  (∀ u j, objs σ !! u = Some j → objs σ' !! u = Some j) ∧
  (consistent σ → consistent σ').
Proof.
  revert σ. induction props as [|[k v] props IH]; intros σ;
    cbn [Element.set_attrs].
  - intros ?; by simplify_eq.
  - intros (σ1 & Hset & Hrest)%bind_opt_Some.
    destruct (set_attr_keeps _ _ _ _ _ Hset) as (Ho1 & Hc1).
    destruct (IH σ1 Hrest) as (Ho2 & Hc2).
    split; [intros u j Hu; by apply Ho2, Ho1|].
    intros Hcons. by apply Hc2, Hc1.
Qed.

Lemma set_attrs_app (ps qs : list (string * value)) (σ : state) (e : positive) :
  Element.set_attrs e (ps ++ qs) σ
    = let? σ1 := Element.set_attrs e ps σ in Element.set_attrs e qs σ1.
Proof.
  revert σ. induction ps as [|[k v] ps IH]; intros σ; simpl; [done|].
  destruct (Element.set_attr e (Utf8Value (jsString k)) (Utf8Value v) σ)
    as [σ1|]; simpl; [|done].
  apply IH.
Qed.


(** X10: two bulk settings in a row compose: [attr(m1)] followed by
    [attr(m2)] leaves the store that [attr] of the concatenated property
    list leaves. *)
Theorem attr_maps_compose (σ σ1 : state) (this : positive)
    (ps qs : list (string * value)) (r : completion) :
  Element.Attr this [jsObject ps] σ = Some (r, σ1) →
  Element.Attr this [jsObject qs] σ1
    = Element.Attr this [jsObject (ps ++ qs)] σ.
Proof.
  intros Hrun. unfold Element.Attr in Hrun |- *.
  apply bind_opt_Some in Hrun as (e & He & Hrun). simpl in Hrun.
  apply bind_opt_Some in Hrun as (σ2 & Hset & Hrun). simplify_eq.
  destruct (set_attrs_keeps _ _ _ _ Hset) as (Hobjs & _).
  assert (He1 : Unwrap this σ1 = Some e).
  { unfold Unwrap in *. destruct (objs σ !! this) as [j|] eqn:Hj; [|done].
    by rewrite (Hobjs this j Hj). }
  rewrite He, He1; simpl. by rewrite set_attrs_app, Hset.
Qed.
End more_setting.

(** ** Setting an attribute and reading it back *)

Lemma find_prop_same_tree (h h' : gmap positive xmlNode) (m : xmlNode → bool)
    (l : list positive) :
  same_tree h h' →
  (∀ x w, m (set_private w x) = m x) →
  find_prop h m l = find_prop h' m l.
Proof.
  intros Ht Hm. apply find_prop_ext. intros p _. specialize (Ht p).
  destruct (h !! p) as [x|], (h' !! p) as [y|]; simpl in *; try done.
  rewrite <- (Hm x None), <- (Hm y None). congruence.
Qed.

Lemma find_prop_matcher_ext (h : gmap positive xmlNode)
    (m m' : xmlNode → bool) (l : list positive) :
  (∀ p, p ∈ l → from_option m false (h !! p) = from_option m' false (h !! p)) →
  find_prop h m l = find_prop h m' l.
Proof.
  induction l as [|p l IH]; intros Hext; simpl; [done|].
  assert (Hp := Hext p (list_elem_of_here p l)).
  rewrite IH by (intros q Hq; apply Hext; by right).
  destruct (h !! p) as [a|]; simpl in Hp; [by rewrite Hp|done].
Qed.

Section reading_back.
Context {decl : Declarations}.

Lemma xmlHasProp_same_tree (h h' : gmap positive xmlNode) (e : positive)
    (nm : string) :
  same_tree h h' → xmlHasProp h e nm = xmlHasProp h' e nm.
Proof.
  intros Ht. unfold xmlHasProp. assert (He := Ht e).
  destruct (h !! e) as [n|] eqn:Hn, (h' !! e) as [n'|] eqn:Hn';
    simpl in He; try done.
  destruct (same_tree_children h h' e n n' Ht Hn Hn')
    as (_ & Hprops & Hname & Hty & _ & _ & _ & Hdoc).
  rewrite <- Hty, <- Hprops, <- Hname, <- Hdoc. case_decide; [|done].
  by rewrite (find_prop_same_tree h h' (has_name nm) (properties n) Ht).
Qed.

(** After [xmlSetProp] of a name that is set whole, on an element with a
    well-formed chain, [xmlHasProp] finds the attribute that was set. *)
Lemma xmlSetProp_then_has (h h' : gmap positive xmlNode) (e a : positive)
    (n : xmlNode) (nm v : string) :
  h !! e = Some n →
  plain_attributes h e n →
  set_whole e nm →
  xmlSetProp e nm v h = Some (a, h') →
  xmlHasProp h' e nm = Some a ∧
  ∃ an, h' !! a = Some an ∧ name an = nm ∧ content an = Some v ∧
        type an = XML_ATTRIBUTE_NODE ∧ parent an = Some e.
Proof.
  intros Hn Hplain Hwhole Hrun.
  rewrite (xmlSetProp_whole e nm v h Hwhole) in Hrun.
  destruct (xmlSetNsProp_shape h h' e a None nm v Hrun)
    as (n0 & Hn0 & Hty & Hcase).
  change (in_namespace nm None) with (has_name_no_ns nm) in Hcase.
  cbn [bind_ns] in Hcase.
  assert (n0 = n) as -> by congruence. clear Hn0. rename Hn into Hn0.
  rename n into n0.
  assert (Hagree : ∀ p, p ∈ properties n0 →
            from_option (has_name nm) false (h !! p)
            = from_option (has_name_no_ns nm) false (h !! p)).
  { intros p Hp. destruct (h !! p) as [x|] eqn:Hx; simpl; [|done].
    destruct (Hplain p x Hp Hx) as (_ & _ & Hns).
    unfold has_name, has_name_no_ns. rewrite Hns.
    by rewrite (bool_decide_eq_true_2 (None = None)), andb_true_r. }
  destruct Hcase as [(an & Hfind & Han & ->)|(Hfind & -> & ->)].
  - destruct (find_prop_Some _ _ _ _ Hfind) as (Hin & an0 & Han0 & Hm).
    simplify_eq. apply has_name_no_ns_true in Hm as [Hname _].
    destruct (Hplain a an Hin Han) as (Hta & Hpa & _).
    assert (Hea : e ≠ a) by (intros ->; simplify_eq; congruence).
    split.
    + unfold xmlHasProp. rewrite lookup_insert_ne by done. rewrite Hn0.
      rewrite decide_True by done.
      assert (Hhas : find_prop (<[a := set_node_content (Some v) an]> h)
                       (has_name nm) (properties n0) = Some a).
      { rewrite <- Hfind.
        rewrite <- (find_prop_matcher_ext h _ _ _ Hagree).
        symmetry. apply find_prop_ext. intros p _.
        destruct (decide (p = a)) as [->|Hne].
        * by rewrite lookup_insert_eq, Han.
        * by rewrite lookup_insert_ne. }
      by rewrite Hhas.
    + eexists. rewrite lookup_insert_eq. by repeat split.
  - set (a := fresh (dom h)) in *.
    assert (Hfresh : h !! a = None) by apply fresh_node_unused.
    assert (Hne : e ≠ a) by (intros Heq; rewrite Heq in Hn0; congruence).
    set (an := new_attr e (doc n0) nm v).
    set (h' := <[e := set_properties (properties n0 ++ [a]) n0]>
                 (<[a := an]> h)).
    assert (Ha' : h' !! a = Some an).
    { unfold h'. rewrite lookup_insert_ne by done. apply lookup_insert_eq. }
    split; [|exists an; by repeat split].
    unfold xmlHasProp. fold h'. unfold h' at 1. rewrite lookup_insert_eq.
    simpl. rewrite decide_True by done.
    rewrite find_prop_app_last, Ha'; simpl.
    unfold has_name at 2. simpl. rewrite bool_decide_eq_true_2 by done.
    destruct (find_prop h' (has_name nm) (properties n0)) as [p|] eqn:Hp;
      [|done].
    destruct (find_prop_Some _ _ _ _ Hp) as (Hin & x & Hx & Hmx).
    destruct (decide (p = a)) as [->|Hpa]; [done|]. exfalso.
    assert (Hx0 : ∃ x0, h !! p = Some x0 ∧ name x0 = name x).
    { unfold h' in Hx. destruct (decide (p = e)) as [->|Hpe].
      - rewrite lookup_insert_eq in Hx. simplify_eq. by exists n0.
      - rewrite !lookup_insert_ne in Hx by done. by exists x. }
    destruct Hx0 as (x0 & Hx0 & Hname).
    assert (Hno := find_prop_None_inv _ _ _ p x0 Hfind Hin Hx0).
    specialize (Hagree p Hin). rewrite Hx0 in Hagree; simpl in Hagree.
    rewrite Hno in Hagree. unfold has_name in Hagree, Hmx.
    rewrite Hname in Hagree. congruence.
Qed.
End reading_back.

Section roundtrip.
Context {v8 : V8} {decl : Declarations} {engine : Engine}.

Lemma consistent_Unwrap (σ : state) (p w : positive) :
  consistent σ → JsObj_Unwrap p σ = Some w → Unwrap w σ = Some p.
Proof.
  intros Hcons (pn & Hpn & Hw)%bind_opt_Some. by apply (Hcons p pn w).
Qed.

(** Setting one attribute through [attr({k: v})] and looking it up again
    through [attr(k)]: the store the setter leaves, the wrapper the
    getter returns and the node behind it. *)
Lemma attr_set_then_get (σ : state) (this e w : positive) (n : xmlNode)
    (k : string) (v : value) :
  Unwrap this σ = Some e →
  nodes σ !! e = Some n →
  type n = XML_ELEMENT_NODE →
  _private n = Some w →
  consistent σ →
  plain_attributes (nodes σ) e n →
  set_whole e (c_str k) →
  ∃ σ1 wa a an,
    Element.Attr this [jsObject [(k, v)]] σ
      = Some (Return (jsWrapper this), σ1) ∧
    Element.Attr this [jsString k] σ1 = Some (Return (jsWrapper wa), σ1) ∧
    Unwrap wa σ1 = Some a ∧ nodes σ1 !! a = Some an ∧
    name an = c_str k ∧ content an = Some (Utf8Value v) ∧
    type an = XML_ATTRIBUTE_NODE ∧ parent an = Some e ∧
    JsObj_Unwrap e σ1 = Some w.
Proof.
  intros Hthis Hn Hty Hpriv Hcons Hplain Hwhole.
  assert (Hw : Unwrap w σ = Some e) by (by apply (Hcons e n w)).
  destruct (set_attr_chain σ e w n (c_str k) (Utf8Value v) Hn Hty Hpriv Hw)
    as (σ1 & n1 & Hset & Hn1 & Hty1 & Hpriv1 & _).
  destruct (set_attr_run σ σ1 e (c_str k) (Utf8Value v) Hset)
    as (w0 & e0 & a & h & wa & Hw0 & He0 & Hprop & Hbuild).
  rewrite c_str_idemp, Utf8Value_c_str in Hprop.
  assert (w0 = w) as ->.
  { unfold JsObj_Unwrap in Hw0. rewrite Hn in Hw0. simpl in Hw0. congruence. }
  assert (e0 = e) as -> by congruence.
  destruct (xmlSetProp_then_has (nodes σ) h e a n (c_str k) (Utf8Value v)
              Hn Hplain Hwhole Hprop)
    as (Hhas & an & Han & Hname & Hcontent & Htya & Hparent).
  assert (Hwraps := get_or_build_only_wraps _ _ _ _ Hbuild).
  destruct (get_or_build_keeps _ _ _ _ Hbuild) as (Hreg & _).
  assert (Hcons1 : consistent σ1).
  { apply Hwraps. intros p pn' u Hp Hu. simpl in Hp.
    destruct (xmlSetProp_slots _ _ _ _ _ _ Hprop) as (Hback & _).
    destruct (Hback p pn' u Hp Hu) as (pn & Hpn & Hpu).
    by apply (Hcons p pn u). }
  destruct Hwraps as (Htree & _ & Hobjs & _). simpl in Htree, Hobjs.
  destruct (same_tree_live h (nodes σ1) a an Htree Han) as [an1 Han1].
  destruct (same_tree_children h (nodes σ1) a an an1 Htree Han Han1)
    as (_ & _ & Hname1 & Htype1 & Hcontent1 & Hparent1 & _).
  exists σ1, wa, a, an1. split; [|split].
  - unfold Element.Attr. rewrite Hthis; simpl. read_args. by rewrite Hset.
  - assert (Hthis1 : Unwrap this σ1 = Some e).
    { unfold Unwrap in *. destruct (objs σ !! this) as [j|] eqn:Hj; [|done].
      by rewrite (Hobjs this j Hj). }
    unfold Element.Attr. rewrite Hthis1; simpl. read_args.
    unfold Element.get_attr. rewrite Hn1; simpl.
    rewrite <- (xmlHasProp_same_tree h (nodes σ1) e (c_str k) Htree), Hhas.
    unfold JsObj_Unwrap in Hreg. rewrite Han1 in Hreg. simpl in Hreg.
    by rewrite (get_or_build_registered σ1 a wa an1).
  - split; [by apply consistent_Unwrap|]. split; [done|].
    split; [congruence|]. split; [congruence|]. split; [congruence|].
    split; [congruence|]. unfold JsObj_Unwrap. by rewrite Hn1.
Qed.

(** X11: setting then getting an attribute is a round trip, for a key
    that the engine sets whole (no prefix, or one that is not bound at
    the element) and that is read up to its first NUL character: after
    [attr({k: v})] on an element with a well-formed attribute chain,
    [attr(k)] returns, without changing anything, a wrapper whose
    [name()] is [k], read so, and whose value is [v], the empty string
    included. *)
Theorem attr_set_get_roundtrip (σ : state) (this e w : positive)
    (n : xmlNode) (k : string) (v : value) :
  Unwrap this σ = Some e →
  nodes σ !! e = Some n →
  type n = XML_ELEMENT_NODE →
  _private n = Some w →
  consistent σ →
  plain_attributes (nodes σ) e n →
  set_whole e (c_str k) →
  ∃ σ1 wa a,
    Element.Attr this [jsObject [(k, v)]] σ
      = Some (Return (jsWrapper this), σ1) ∧
    Element.Attr this [jsString k] σ1 = Some (Return (jsWrapper wa), σ1) ∧
    Attribute.Name wa [] σ1 = Some (Return (jsString (c_str k)), σ1) ∧
    Unwrap wa σ1 = Some a ∧
    Attribute.get_value a σ1 = Some (jsString (Utf8Value v)).
Proof.
  intros Hthis Hn Hty Hpriv Hcons Hplain Hwhole.
  destruct (attr_set_then_get σ this e w n k v Hthis Hn Hty Hpriv Hcons Hplain
              Hwhole)
    as (σ1 & wa & a & an & Hset & Hget & Hwa & Han & Hname & Hcontent
        & Htya & _).
  exists σ1, wa, a. repeat (split; [done|]). split; [|split; [done|]].
  - unfold Attribute.Name. rewrite Hwa; simpl.
    unfold Attribute.get_name. rewrite Han; simpl. by rewrite Hname.
  - unfold Attribute.get_value, xmlNodeGetContent. rewrite Han; simpl.
    by rewrite Htya, Hcontent.
Qed.

(** X12: the attribute leads back to its element: after [attr({k: v})]
    with a key that the engine sets whole, [attr(k).node()] is the
    wrapper registered for the element. *)
Theorem attr_node_is_element (σ : state) (this e w : positive)
    (n : xmlNode) (k : string) (v : value) :
  Unwrap this σ = Some e →
  nodes σ !! e = Some n →
  type n = XML_ELEMENT_NODE →
  _private n = Some w →
  consistent σ →
  plain_attributes (nodes σ) e n →
  set_whole e (c_str k) →
  ∃ σ1 wa,
    Element.Attr this [jsObject [(k, v)]] σ
      = Some (Return (jsWrapper this), σ1) ∧
    Element.Attr this [jsString k] σ1 = Some (Return (jsWrapper wa), σ1) ∧
    Attribute.Node wa [] σ1 = Some (Return (jsWrapper w), σ1).
Proof.
  intros Hthis Hn Hty Hpriv Hcons Hplain Hwhole.
  destruct (attr_set_then_get σ this e w n k v Hthis Hn Hty Hpriv Hcons Hplain
              Hwhole)
    as (σ1 & wa & a & an & Hset & Hget & Hwa & Han & _ & _ & _ & Hparent
        & He).
  exists σ1, wa. repeat (split; [done|]).
  unfold Attribute.Node. rewrite Hwa; simpl.
  unfold Attribute.get_element. rewrite Han; simpl. rewrite Hparent; simpl.
  by rewrite He.
Qed.

(** A key with a bound prefix does not come back under its own name: on
    the sample root, after [attr({"xml:lang": "en"})], [attr("xml:lang")]
    is null; the attribute is [lang], in the namespace of [xml]. *)
Example attr_bound_prefix_no_roundtrip :
  ∃ σ1 wa,
    Element.Attr (v8 := sample_v8) (decl := sample_declarations) 1%positive
        [jsObject [("xml:lang", jsString "en")]] sample
      = Some (Return (jsWrapper 1%positive), σ1) ∧
    Element.Attr (v8 := sample_v8) (decl := sample_declarations) 1%positive
        [jsString "xml:lang"] σ1
      = Some (Return jsNull, σ1) ∧
    Element.Attr (v8 := sample_v8) (decl := sample_declarations) 1%positive
        [jsString "lang"] σ1
      = Some (Return (jsWrapper wa), σ1).
Proof. eexists _, _. repeat split; vm_compute; reflexivity. Qed.

(** X13: bulk setting never removes or reorders attributes: the chain
    before is a prefix of the chain after, and at most one node is added
    per pair of the map. *)
Theorem attr_map_keeps_order (σ : state) (this e w : positive) (n : xmlNode)
    (props : list (string * value)) :
  Unwrap this σ = Some e →
  nodes σ !! e = Some n →
  type n = XML_ELEMENT_NODE →
  registered σ e w →
  ∃ σ' n',
    Element.Attr this [jsObject props] σ
      = Some (Return (jsWrapper this), σ') ∧
    nodes σ' !! e = Some n' ∧
    properties n `prefix_of` properties n' ∧
    (length (properties n') ≤ length (properties n) + length props)%nat.
Proof.
  intros Hthis Hn Hty [Hreg Hw].
  unfold JsObj_Unwrap in Hreg. rewrite Hn in Hreg; simpl in Hreg.
  assert (Hloop : ∃ σ' n',
            Element.set_attrs e props σ = Some σ' ∧
            nodes σ' !! e = Some n' ∧
            properties n `prefix_of` properties n' ∧
            (length (properties n') ≤ length (properties n) + length props)%nat).
  { clear Hthis. revert σ n Hn Hty Hreg Hw.
    induction props as [|[k v] props IH]; intros σ n Hn Hty Hreg Hw.
    - exists σ, n. simpl. repeat split; [done|done|lia].
    - destruct (set_attr_chain σ e w n (Utf8Value (jsString k)) (Utf8Value v)
                  Hn Hty Hreg Hw)
        as (σ1 & n1 & Hset & Hn1 & Hty1 & Hp1 & Hw1 & _ & Hchain).
      destruct (IH σ1 n1 Hn1 Hty1 Hp1 Hw1) as (σ' & n' & Hrest & Hn' & Hpre & Hlen).
      exists σ', n'. cbn [Element.set_attrs]. rewrite Hset; simpl.
      split; [done|]. split; [done|].
      destruct Hchain as [Heq|[a Heq]]; rewrite Heq in Hpre, Hlen.
      + split; [done|]. simpl. lia.
      + split; [by eapply prefix_app_l|].
        rewrite length_app in Hlen. simpl in *. lia. }
  destruct Hloop as (σ' & n' & Hrun & Hn' & Hpre & Hlen).
  exists σ', n'. split; [|done].
  unfold Element.Attr. rewrite Hthis; simpl. by rewrite Hrun.
Qed.
End roundtrip.

(** ** Creating elements *)

Lemma append_empty_r (s : string) : String.append s EmptyString = s.
Proof.
  induction s as [|a s IH]; [done|].
  change (String a (String.append s EmptyString) = String a s).
  by rewrite IH.
Qed.

Section creating.
Context {v8 : V8} {decl : Declarations} {engine : Engine}.

(** In the store, the text below an element freshly created with a
    content that holds no reference is that content, and is empty
    without one. *)
Lemma xmlNewDocNode_content (d : positive) (nm : string) (c : option string)
    (h : gmap positive xmlNode) (w : option positive) :
  (∀ s, c = Some s → has_amp s = false) →
  let cur := (xmlNewDocNode d nm c h).1 in
  let h' := (xmlNewDocNode d nm c h).2 in
  ∀ n, h' !! cur = Some n →
       xmlNodeGetContent (<[cur := set_private w n]> h') cur
         = Some (default EmptyString c).
Proof.
  intros Hplain. unfold xmlNewDocNode. destruct c as [s|]; simpl; intros n Hn.
  - unfold xmlStringGetNodeList in *. rewrite (Hplain s eq_refl) in *.
    simpl in *. rewrite lookup_insert_eq in Hn. simplify_eq.
    set (cur := fresh (dom h)).
    set (h1 := <[cur := new_element d nm []]> h).
    set (t := fresh (dom h1)).
    assert (Ht : t ≠ cur).
    { intros Heq. assert (Hu := fresh_node_unused h1). fold t in Hu.
      rewrite Heq in Hu. unfold h1 in Hu. by rewrite lookup_insert_eq in Hu. }
    set (h3 := <[cur := set_private w (new_element d nm [t])]>
                 (<[cur := new_element d nm [t]]>
                    (<[t := new_text cur d s]> h1))).
    assert (Htext : h3 !! t = Some (new_text cur d s)).
    { unfold h3. rewrite !lookup_insert_ne by done. apply lookup_insert_eq. }
    unfold xmlNodeGetContent. fold h3. unfold h3 at 1.
    rewrite lookup_insert_eq. simpl.
    destruct (size h3) as [|k] eqn:Hsize.
    + apply map_size_empty_inv in Hsize. rewrite Hsize in Htext.
      by rewrite lookup_empty in Htext.
    + simpl. rewrite Htext. simpl. by rewrite append_empty_r.
  - rewrite lookup_insert_eq in Hn. simplify_eq.
    unfold xmlNodeGetContent. by rewrite lookup_insert_eq.
Qed.

(** X14: an element created without content (no content argument, one
    that is not a string, or the empty string) has no text: [text()] on
    the wrapper that the constructor returns is null. *)
Theorem new_element_without_content (σ : state) (this dw d : positive)
    (x : string) (a2 c4 a4 : value) :
  Unwrap dw σ = Some d →
  IsObject a2 = false →
  (∀ a s, c4 ≠ jsString (String a s)) →
  (∀ f, a4 ≠ jsFunction f) →
  ∃ w σ1,
    Element.New this [jsWrapper dw; jsString x; a2; c4; a4] σ
      = Some (Return (jsWrapper w), σ1) ∧
    Element.Text w [] σ1 = Some (Return jsNull, σ1).
Proof.
  intros Hdoc Hattrs Hcontent Hcb.
  set (c := if IsString c4 then Some (Utf8Value c4) else None).
  assert (Hempty : default EmptyString c = EmptyString).
  { unfold c. destruct c4 as [| | | |[|a s]| | | |]; try done.
    by destruct (Hcontent a s). }
  assert (Hplain : ∀ s, c = Some s → has_amp s = false).
  { intros s Hs. destruct c as [s'|]; [|done]. simpl in Hempty.
    by simplify_eq. }
  destruct (New_builds σ d (c_str x) c)
    as (elem & h & kids & w & σb & Hcreate & Hbuild & Hnodes & Hnew & Hw).
  exists w, σb. split.
  - unfold Element.New. read_args.
    cbn [Unwrap_value]. rewrite Hdoc; cbn [bind_opt].
    fold c. rewrite Hcreate. rewrite Hbuild; cbn [bind_opt].
    rewrite Hw; cbn [bind_opt]. rewrite Hattrs; cbn [bind_opt].
    destruct a4; try done. by destruct (Hcb f).
  - unfold Element.Text. rewrite Hw; simpl.
    unfold Element.get_content. rewrite Hnodes.
    assert (Hc := xmlNewDocNode_content d (c_str x) c (nodes σ) (Some w)).
    rewrite Hcreate in Hc. simpl in Hc. rewrite (Hc Hplain _ Hnew). simpl.
    by rewrite Hempty.
Qed.

(** X15: an element created with an attribute map whose keys are plain
    names (no NUL character, no prefix) has exactly the attributes of
    the map, each with the last value the map gives it. *)
Theorem new_element_attributes (σ : state) (this dw d : positive)
    (x : string) (props : list (string * value)) (c4 a4 : value) :
  Unwrap dw σ = Some d →
  (∀ k v, (k, v) ∈ props → plain_name k) →
  (∀ f, a4 ≠ jsFunction f) →
  ∃ w σ1 elem,
    Element.New this [jsWrapper dw; jsString x; jsObject props; c4; a4] σ
      = Some (Return (jsWrapper w), σ1) ∧
    Unwrap w σ1 = Some elem ∧
    ∀ k, attr_value (nodes σ1) elem k = Utf8Value <$> last_binding k props.
Proof.
  intros Hdoc Hplain Hcb.
  set (c := if IsString c4 then Some (Utf8Value c4) else None).
  destruct (New_builds σ d (c_str x) c)
    as (elem & h & kids & w & σb & Hcreate & Hbuild & Hnodes & Hnew & Hw).
  assert (Hn : nodes σb !! elem
               = Some (set_private (Some w) (new_element d (c_str x) kids))).
  { rewrite Hnodes. apply lookup_insert_eq. }
  destruct (set_attrs_effect props σb elem w _ Hn eq_refl eq_refl Hw Hplain)
    as (σ1 & Hset & Hobjs & Hval).
  exists w, σ1, elem. split; [|split].
  - unfold Element.New. read_args.
    cbn [Unwrap_value]. rewrite Hdoc; cbn [bind_opt].
    fold c. rewrite Hcreate. rewrite Hbuild; cbn [bind_opt].
    rewrite Hw; cbn [bind_opt IsObject own_properties].
    rewrite Hset; cbn [bind_opt].
    destruct a4; try done. by destruct (Hcb f).
  - unfold Unwrap in *. destruct (objs σb !! w) as [j|] eqn:Hj; [|done].
    by rewrite (Hobjs w j Hj).
  - intros k. rewrite Hval. destruct (last_binding k props); [done|].
    unfold attr_value. by rewrite Hn.
Qed.

(** A key with the prefix [xml] is not an attribute of that name: the
    element created with [{"xml:lang": "en"}] has no attribute
    [xml:lang] in no namespace. *)
Example new_element_prefixed_key :
  ∃ w σ1 elem,
    Element.New (v8 := sample_v8) (decl := sample_declarations)
        (engine := sample_engine) 7%positive
        [jsWrapper 2%positive; jsString "x";
         jsObject [("xml:lang", jsString "en")]] sample
      = Some (Return (jsWrapper w), σ1) ∧
    Unwrap w σ1 = Some elem ∧
    attr_value (nodes σ1) elem "xml:lang" = None.
Proof. eexists _, _, _. repeat split; vm_compute; reflexivity. Qed.
End creating.

(** ** The sample stores are well formed *)

Lemma consistent_by_nodes (σ : state) :
  map_Forall (λ p pn, ∀ w, _private pn = Some w → Unwrap w σ = Some p)
             (nodes σ) →
  consistent σ.
Proof. intros Hall p pn w Hp Hw. by apply (Hall p pn Hp w). Qed.

Lemma sample_consistent : consistent sample.
Proof.
  apply consistent_by_nodes. unfold sample, sample_nodes; simpl.
  repeat (apply map_Forall_insert_2;
          [simpl; intros w Hw; by simplify_eq|]).
  apply map_Forall_empty.
Qed.

Lemma sample_doc_wrapped_consistent : consistent sample_doc_wrapped.
Proof.
  apply consistent_by_nodes. unfold sample_doc_wrapped, sample_nodes; simpl.
  repeat (apply map_Forall_insert_2;
          [simpl; intros w Hw; by simplify_eq|]).
  apply map_Forall_empty.
Qed.

Lemma sample_root_children_live (c : positive) :
  c ∈ children sample_root → is_Some (nodes sample !! c).
Proof.
  simpl. intros Hc. apply list_elem_of_In in Hc. simpl in Hc.
  destruct Hc as [<-|[<-|[]]]; eexists; reflexivity.
Qed.

Lemma sample_root_children_distinct : NoDup (children sample_root).
Proof. apply (bool_decide_unpack _). vm_compute. exact I. Qed.

Lemma sample_root_attributes_live (a : positive) :
  a ∈ properties sample_root → is_Some (nodes sample !! a).
Proof.
  simpl. intros Ha. apply list_elem_of_In in Ha. simpl in Ha.
  destruct Ha as [<-|[]]; eexists; reflexivity.
Qed.

Lemma sample_root_plain_attributes :
  plain_attributes (nodes sample) 2%positive sample_root.
Proof.
  intros p x Hp Hx. simpl in Hp. apply list_elem_of_In in Hp. simpl in Hp.
  destruct Hp as [<-|[]]. vm_compute in Hx. by simplify_eq.
Qed.

(** ** Witnesses *)

Lemma read_accessors_only_wrap_witness :
  ∃ r σ', Element.Child 1%positive [jsNumber (of_Z 1)] sample = Some (r, σ') ∧
          only_wraps sample σ'.
Proof.
  eexists _, _. split; [vm_compute; reflexivity|].
  eapply (read_accessors_only_wrap (v8 := sample_v8)
            (decl := sample_declarations) (engine := sample_engine)
            sample _ 1%positive).
  left. exists [jsNumber (of_Z 1)]. vm_compute. reflexivity.
Defined.

Lemma children_lists_all_witness :
  ∃ ws σ', Element.Children 1%positive [] sample
             = Some (Return (jsArray (jsWrapper <$> ws)), σ') ∧
           Forall2 (λ p w, JsObj_Unwrap p σ' = Some w)
                   [3%positive; 4%positive] ws.
Proof.
  destruct (children_lists_all sample 1%positive 2%positive sample_root [])
    as (ws & σ' & Hrun & Hall & _).
  - reflexivity.
  - reflexivity.
  - exact sample_root_children_distinct.
  - exact sample_root_children_live.
  - by exists ws, σ'.
Defined.

Lemma attrs_lists_all_witness :
  ∃ ws σ', Element.Attrs 1%positive [] sample
             = Some (Return (jsArray (jsWrapper <$> ws)), σ') ∧
           Forall2 (λ p w, JsObj_Unwrap p σ' = Some w) [5%positive] ws.
Proof.
  destruct (attrs_lists_all sample 1%positive 2%positive sample_root [])
    as (ws & σ' & Hrun & Hall & _).
  - reflexivity.
  - reflexivity.
  - exact sample_root_attributes_live.
  - by exists ws, σ'.
Defined.

Lemma child_after_children_witness :
  ∃ v1 v2 σ', Element.Children 1%positive [] sample
                = Some (Return (jsArray [v1; v2]), σ') ∧
              Element.Child 1%positive [jsNumber (of_Z 2)] σ'
                = Some (Return v2, σ').
Proof.
  eexists _, _, _. split; [vm_compute; reflexivity|].
  eapply (child_after_children sample _ 1%positive 2%positive sample_root
            [] _ 1%nat).
  - reflexivity.
  - reflexivity.
  - exact sample_root_children_distinct.
  - vm_compute. reflexivity.
  - reflexivity.
Defined.

Lemma child_twice_same_wrapper_witness :
  ∃ r σ', Element.Child 1%positive [jsNumber (of_Z 2)] sample = Some (r, σ') ∧
          Element.Child 1%positive [jsNumber (of_Z 2)] σ' = Some (r, σ').
Proof.
  eexists _, _. split; [vm_compute; reflexivity|].
  eapply (child_twice_same_wrapper sample).
  vm_compute. reflexivity.
Defined.

Lemma child_index_rounds_up_witness :
  Element.Child 1%positive [jsNumber one_and_a_half] sample
    = Element.Child 1%positive [jsNumber (of_Z 2)] sample.
Proof.
  apply (child_index_rounds_up sample 1%positive one_and_a_half 2).
  - lia.
  - reflexivity.
  - reflexivity.
Defined.

Lemma destruct_twice_witness :
  ∃ σ', notify_free (LibXMLJS no_hook) 1%positive sample_doc_wrapped = Some σ' ∧
        notify_free (LibXMLJS no_hook) 1%positive σ' = Some σ'.
Proof.
  eexists. split; [vm_compute; reflexivity|].
  eapply (destruct_twice no_hook sample_doc_wrapped).
  vm_compute. reflexivity.
Defined.

Lemma destruct_keeps_consistent_witness :
  ∃ σ', notify_free (LibXMLJS no_hook) 2%positive sample = Some σ' ∧
        consistent σ' ∧ same_tree (nodes sample) (nodes σ').
Proof.
  eexists. split; [vm_compute; reflexivity|].
  eapply (destruct_keeps_consistent no_hook sample _ 2%positive).
  - exact sample_consistent.
  - vm_compute. reflexivity.
Defined.


Lemma attr_maps_compose_witness :
  ∃ r σ1, Element.Attr (v8 := sample_v8) (decl := sample_declarations) 1%positive
              [jsObject [("a", jsString "1")]] sample = Some (r, σ1) ∧
          Element.Attr (v8 := sample_v8) (decl := sample_declarations) 1%positive
              [jsObject [("b", jsString "2")]] σ1
            = Element.Attr (v8 := sample_v8) (decl := sample_declarations) 1%positive
                [jsObject [("a", jsString "1"); ("b", jsString "2")]] sample.
Proof.
  eexists _, _. split; [vm_compute; reflexivity|].
  eapply (attr_maps_compose (v8 := sample_v8) (decl := sample_declarations) sample _ 1%positive
            [("a", jsString "1")] [("b", jsString "2")]).
  vm_compute. reflexivity.
Defined.

Lemma attr_set_get_roundtrip_witness :
  ∃ σ1 wa a,
    Element.Attr (v8 := sample_v8) (decl := sample_declarations) 1%positive
        [jsObject [("lang", jsString "")]] sample
      = Some (Return (jsWrapper 1%positive), σ1) ∧
    Element.Attr (v8 := sample_v8) (decl := sample_declarations) 1%positive [jsString "lang"] σ1
      = Some (Return (jsWrapper wa), σ1) ∧
    Attribute.Name wa [] σ1 = Some (Return (jsString "lang"), σ1) ∧
    Unwrap wa σ1 = Some a ∧
    Attribute.get_value a σ1 = Some (jsString "").
Proof.
  apply (attr_set_get_roundtrip (v8 := sample_v8) (decl := sample_declarations) sample 1%positive 2%positive
           1%positive sample_root "lang" (jsString "")).
  - reflexivity.
  - reflexivity.
  - reflexivity.
  - reflexivity.
  - exact sample_consistent.
  - exact sample_root_plain_attributes.
  - intros prefix local Hsplit. discriminate Hsplit.
Defined.

Lemma attr_node_is_element_witness :
  ∃ σ1 wa,
    Element.Attr (v8 := sample_v8) (decl := sample_declarations) 1%positive
        [jsObject [("id", jsString "9")]] sample
      = Some (Return (jsWrapper 1%positive), σ1) ∧
    Element.Attr (v8 := sample_v8) (decl := sample_declarations) 1%positive [jsString "id"] σ1
      = Some (Return (jsWrapper wa), σ1) ∧
    Attribute.Node wa [] σ1 = Some (Return (jsWrapper 1%positive), σ1).
Proof.
  apply (attr_node_is_element (v8 := sample_v8) (decl := sample_declarations) sample 1%positive 2%positive
           1%positive sample_root "id" (jsString "9")).
  - reflexivity.
  - reflexivity.
  - reflexivity.
  - reflexivity.
  - exact sample_consistent.
  - exact sample_root_plain_attributes.
  - intros prefix local Hsplit. discriminate Hsplit.
Defined.

Lemma attr_map_keeps_order_witness :
  ∃ σ' n',
    Element.Attr (v8 := sample_v8) (decl := sample_declarations) 1%positive
        [jsObject [("a", jsString "1"); ("id", jsString "2")]] sample
      = Some (Return (jsWrapper 1%positive), σ') ∧
    nodes σ' !! 2%positive = Some n' ∧
    [5%positive] `prefix_of` properties n' ∧
    (length (properties n') ≤ 3)%nat.
Proof.
  apply (attr_map_keeps_order (v8 := sample_v8) (decl := sample_declarations) sample 1%positive 2%positive
           1%positive sample_root
           [("a", jsString "1"); ("id", jsString "2")]).
  - reflexivity.
  - reflexivity.
  - reflexivity.
  - split; reflexivity.
Defined.

Lemma new_element_without_content_witness :
  ∃ w σ1,
    Element.New (v8 := sample_v8) (decl := sample_declarations)
        (engine := sample_engine) 7%positive
        [jsWrapper 2%positive; jsString "name1"; jsUndefined; jsUndefined;
         jsUndefined] sample
      = Some (Return (jsWrapper w), σ1) ∧
    Element.Text (v8 := sample_v8) (engine := sample_engine) w [] σ1
      = Some (Return jsNull, σ1).
Proof.
  apply (new_element_without_content (v8 := sample_v8)
           (decl := sample_declarations) (engine := sample_engine)
           sample 7%positive 2%positive 1%positive
           "name1" jsUndefined jsUndefined jsUndefined).
  - reflexivity.
  - reflexivity.
  - intros a s. discriminate.
  - intros f. discriminate.
Defined.

Lemma new_element_attributes_witness :
  ∃ w σ1 elem,
    Element.New (v8 := sample_v8) (decl := sample_declarations)
        (engine := sample_engine) 7%positive
        [jsWrapper 2%positive; jsString "item";
         jsObject [("a", jsString "1"); ("b", jsString "2")];
         jsUndefined; jsUndefined] sample
      = Some (Return (jsWrapper w), σ1) ∧
    Unwrap w σ1 = Some elem ∧
    ∀ k, attr_value (nodes σ1) elem k
         = Utf8Value (v8 := sample_v8)
             <$> last_binding k [("a", jsString "1"); ("b", jsString "2")].
Proof.
  apply (new_element_attributes (v8 := sample_v8)
           (decl := sample_declarations) (engine := sample_engine)
           sample 7%positive
           2%positive 1%positive "item"
           [("a", jsString "1"); ("b", jsString "2")] jsUndefined jsUndefined).
  - reflexivity.
  - intros k v Hin. apply list_elem_of_In in Hin. simpl in Hin.
    destruct Hin as [[= <- <-]|[[= <- <-]|[]]]; split; reflexivity.
  - intros f. discriminate.
Defined.
